(** * Notes: the [Record] aggregate of
      personal_assistant/services/utils/notes/record.py

    A shallow embedding of the [Record] class and of the parts of its
    collaborators (Python strings, [json.dumps], the SQLAlchemy session and
    the [notes] table) that its methods exercise, followed by the properties
    of the class that the specification states. *)

From Stdlib Require Import ZArith NArith String Ascii.
From stdpp Require Import base numbers option list strings gmap fin_maps.

Local Open Scope Z_scope.

(** ** Python strings

    A Python [str] is a sequence of Unicode code points; [json.dumps] and the
    en dash of [format_record] both depend on that, so a string is a list of
    code points and not a list of bytes. *)

Abbreviation pystr := (list N).

(** An ASCII literal as a Python string. *)
Definition py (s : string) : pystr :=
  (λ a : ascii, N_of_ascii a) <$> String.list_ascii_of_string s.

Definition LF : N := 10.        (* line feed *)
Definition TAB : N := 9.        (* horizontal tab *)
Definition EN_DASH : N := 8211. (* U+2013 *)

(** [sep.join(parts)] *)
Fixpoint join (sep : pystr) (parts : list pystr) : pystr :=
  match parts with
  | [] => []
  | [p] => p
  | p :: ps => p ++ sep ++ join sep ps
  end.

(** The values an attribute [.value] of a wrapper may hold, as far as the
    class distinguishes them: [None] or a [str]. *)
Inductive pyval :=
| PyNone
| PyStr (s : pystr).

#[global] Instance pyval_eq_dec : EqDecision pyval.
Proof. solve_decision. Defined.

(** [str(v)], which is also what an f-string field [{v}] produces. *)
Definition py_str (v : pyval) : pystr :=
  match v with
  | PyNone => py "None"
  | PyStr s => s
  end.

(** ** [json.dumps] on a list of strings

    Python's encoder with its default settings ([ensure_ascii=True], items
    separated by a comma and a space): [py_encode_basestring_ascii] for each
    string. *)
Module json.

Definition hex_digit (n : N) : N :=
  (if n <? 10 then 48 + n else 87 + n)%N.

(** A backslash, [u] and the four lowercase hexadecimal digits of [n]. *)
Definition u_escape (n : N) : pystr :=
  [92; 117;
   hex_digit (N.land (N.shiftr n 12) 15);
   hex_digit (N.land (N.shiftr n 8) 15);
   hex_digit (N.land (N.shiftr n 4) 15);
   hex_digit (N.land n 15)]%N.

(** The [replace] callback of [py_encode_basestring_ascii], applied to every
    character: the backslash, the double quote and every character outside
    the range from the space to the tilde are rewritten, the others kept. *)
Definition escape_char (c : N) : pystr :=
  (if c =? 92 then [92; 92]
   else if c =? 34 then [92; 34]
   else if (32 <=? c) && (c <=? 126) then [c]
   else if c =? 8 then [92; 98]
   else if c =? 12 then [92; 102]
   else if c =? 10 then [92; 110]
   else if c =? 13 then [92; 114]
   else if c =? 9 then [92; 116]
   else if c <? 65536 then u_escape c
   else
     let n := c - 65536 in
     let s1 := N.lor 55296 (N.land (N.shiftr n 10) 1023) in
     let s2 := N.lor 56320 (N.land n 1023) in
     u_escape s1 ++ u_escape s2)%N.

Definition encode_basestring_ascii (s : pystr) : pystr :=
  [34%N] ++ concat (escape_char <$> s) ++ [34%N].

Definition encode (v : pyval) : pystr :=
  match v with
  | PyNone => py "null"
  | PyStr s => encode_basestring_ascii s
  end.

(** [json.dumps(l)] for a list [l] *)
Definition dumps (l : list pyval) : pystr :=
  py "[" ++ join (py ", ") (encode <$> l) ++ py "]".

End json.

(** ** Exceptions and results *)

Inductive exn :=
| ValidationError (msg : pystr)     (* what [Text] and [Tag] raise *)
| ValueError (msg : pystr)
| AttributeError (msg : pystr)
| IntegrityError (orig : pystr)     (* [sqlalchemy.exc.IntegrityError]; [orig] is [str(e.orig)] *)
| StatementError (msg : pystr).     (* a parameter that cannot be bound *)

#[global] Instance exn_eq_dec : EqDecision exn.
Proof. solve_decision. Defined.

Inductive res (A : Type) :=
| Ok (a : A)
| Raise (e : exn).
Arguments Ok {A} a.
Arguments Raise {A} e.

(** ** The [notes] table *)

(** Modelled from the spec: the declaration of [models.ModelNotes] is not part
    of the sources.  Section 6 of the specification gives the table: [id]
    integer primary key, assigned by the store; [note] text, UNIQUE and
    NOT NULL; [tags] text.  A stored row is kept under its [id]. *)
Module ModelNotes.

Record Row := { note : pystr; tags : pystr }.

(** An instance of the mapped class, before or after it has been flushed. *)
Record Instance := { inst_id : option Z; inst_note : pyval; inst_tags : pystr }.

End ModelNotes.

#[global] Instance Row_eq_dec : EqDecision ModelNotes.Row.
Proof. solve_decision. Defined.

Abbreviation Table := (gmap Z ModelNotes.Row).

(** The message of SQLite for the violated constraints, [str(e.orig)]. *)
Definition UNIQUE_note : pystr := py "UNIQUE constraint failed: notes.note".
Definition NOT_NULL_note : pystr := py "NOT NULL constraint failed: notes.note".

(** Statements sent to the store, in the order they are issued. *)
Inductive Stmt :=
| INSERT (note : pyval) (tags : pystr)
| UPDATE_note (where_id : option Z) (note : pystr)
| UPDATE_tags (where_id : option Z) (tags : pystr)
| DELETE (where_id : option Z)
| COMMIT.

#[global] Instance Stmt_eq_dec : EqDecision Stmt.
Proof. solve_decision. Defined.

(** Some row of [t] has [s] in its [note] column. *)
Definition note_taken (t : Table) (s : pystr) : bool :=
  bool_decide (map_Exists (λ _ r, ModelNotes.note r = s) t).

(** The key the store assigns to a new row: one more than the largest key in
    use, and 1 in an empty table (SQLite's rowid of an INTEGER PRIMARY KEY
    column). *)
Definition max_id (t : Table) : option Z :=
  map_fold (λ k _ acc, Some (from_option (Z.max k) k acc)) None t.

Definition next_id (t : Table) : Z :=
  match max_id t with
  | None => 1
  | Some m => m + 1
  end.

(** The integers the driver binds as a parameter and the store holds as a
    key: the signed 64-bit range.  For an identifier outside it the driver
    raises [OverflowError] before the statement reaches the store, and for a
    string with a surrogate [UnicodeEncodeError]; the statements below are
    the store's side and describe parameters that were bound, so a property
    of an identifier that is not already the key of a row, or of a text
    that is not already a note, carries [in_int64], or [scalar] for the
    text, as a hypothesis. *)
Definition in_int64 (k : Z) : Prop :=
  -9223372036854775808 ≤ k ≤ 9223372036854775807.

(** [WHERE id = k]: a comparison with [None] is rendered [id IS NULL], which
    no row satisfies. *)
Definition where_row (t : Table) (k : option Z) : option (Z * ModelNotes.Row) :=
  match k with
  | None => None
  | Some k => (λ r, (k, r)) <$> t !! k
  end.

(** One statement against the rows [t] of the open transaction: the rows
    after it and the key of an inserted row, or the message of the violated
    constraint.  The constraints are those of the table above, NOT NULL and
    UNIQUE on [note]; they are checked on the rows a statement writes, so a
    statement that matches no row violates none. *)
Definition exec_insert (t : Table) (n : pyval) (tg : pystr) : pystr + (Z * Table) :=
  match n with
  | PyNone => inl NOT_NULL_note
  | PyStr s =>
      if note_taken t s then inl UNIQUE_note
      else
        let k := next_id t in
        inr (k, <[k := {| ModelNotes.note := s; ModelNotes.tags := tg |}]> t)
  end.

Definition exec_update_note (t : Table) (k : option Z) (s : pystr) : pystr + Table :=
  match where_row t k with
  | None => inr t
  | Some (k, r) =>
      if note_taken (delete k t) s then inl UNIQUE_note
      else inr (<[k := {| ModelNotes.note := s; ModelNotes.tags := ModelNotes.tags r |}]> t)
  end.

Definition exec_update_tags (t : Table) (k : option Z) (tg : pystr) : Table :=
  match where_row t k with
  | None => t
  | Some (k, r) => <[k := {| ModelNotes.note := ModelNotes.note r; ModelNotes.tags := tg |}]> t
  end.

Definition exec_delete (t : Table) (k : option Z) : Table :=
  match where_row t k with
  | None => t
  | Some (k, _) => delete k t
  end.

(** ** The world outside the object

    [table] holds the committed rows, [issued] the statements sent so far
    (oldest first) and [stdout] what [print] was given. *)
Record World := { table : Table; issued : list Stmt; stdout : list exn }.

(** ** The object *)

(** [self.text] is a [Text] wrapper after construction and a bare [str] once
    [replace_text] has assigned to it. *)
Inductive text_attr :=
| TextObj (value : pyval)
| StrObj (s : pystr).

#[global] Instance text_attr_eq_dec : EqDecision text_attr.
Proof. solve_decision. Defined.

(** The attributes of a [Record]; a [Tag] is kept as its [value]. *)
Record RecordObj := { text : text_attr; tags : list pyval; note_id : option Z }.

(** ** A state and exception monad for the methods *)

Record State := { this : RecordObj; world : World }.

Definition M (A : Type) : Type := State → res A * State.

#[global] Instance M_ret : MRet M := λ A a st, (Ok a, st).
#[global] Instance M_bind : MBind M := λ A B f m st,
  match m st with
  | (Ok a, st') => f a st'
  | (Raise e, st') => (Raise e, st')
  end.

#[global] Instance res_ret : MRet res := λ A a, Ok a.
#[global] Instance res_bind : MBind res := λ A B f m,
  match m with
  | Ok a => f a
  | Raise e => Raise e
  end.

Definition raise {A} (e : exn) : M A := λ st, (Raise e, st).

(** A result computed without the state, or the exception it raised. *)
Definition lift {A} (r : res A) : M A := λ st, (r, st).

(** [try: m except Exception as e: h e] *)
Definition try_except {A} (m : M A) (h : exn → M A) : M A := λ st,
  match m st with
  | (Ok a, st') => (Ok a, st')
  | (Raise e, st') => h e st'
  end.

Definition get_self : M RecordObj := λ st, (Ok (this st), st).
Definition get_table : M Table := λ st, (Ok (table (world st)), st).

Definition set_text (t : text_attr) : M unit := λ st,
  (Ok (), {| this := {| text := t; tags := tags (this st); note_id := note_id (this st) |};
             world := world st |}).

Definition set_tags (ts : list pyval) : M unit := λ st,
  (Ok (), {| this := {| text := text (this st); tags := ts; note_id := note_id (this st) |};
             world := world st |}).

Definition set_note_id (i : option Z) : M unit := λ st,
  (Ok (), {| this := {| text := text (this st); tags := tags (this st); note_id := i |};
             world := world st |}).

Definition set_table (t : Table) : M unit := λ st,
  (Ok (), {| this := this st;
             world := {| table := t; issued := issued (world st); stdout := stdout (world st) |} |}).

Definition issue (s : Stmt) : M unit := λ st,
  (Ok (), {| this := this st;
             world := {| table := table (world st); issued := issued (world st) ++ [s];
                         stdout := stdout (world st) |} |}).

(** [print(e)] *)
Definition print (e : exn) : M unit := λ st,
  (Ok (), {| this := this st;
             world := {| table := table (world st); issued := issued (world st);
                         stdout := stdout (world st) ++ [e] |} |}).

(** ** The session

    A session works on the rows as its open transaction sees them and holds
    the instance that [merge] made pending; the committed table changes at
    [commit] only, so leaving the [with] block on an exception drops what
    was not committed. *)
Record Session := { rows : Table; new : option ModelNotes.Instance }.

(** [with self.db_session() as session] *)
Definition db_session : M Session :=
  t ← get_table; mret {| rows := t; new := None |}.

(** [session.merge(instance)] for an instance without a primary key: it
    becomes pending, no statement is sent. *)
Definition merge (s : Session) (i : ModelNotes.Instance) : Session :=
  {| rows := rows s; new := Some i |}.

(** [session.execute(update(...).where(id == k).values(note=s))] *)
Definition execute_update_note (s : Session) (k : option Z) (n : pystr) : M Session :=
  issue (UPDATE_note k n);;
  match exec_update_note (rows s) k n with
  | inl orig => raise (IntegrityError orig)
  | inr t => mret {| rows := t; new := new s |}
  end.

(** [session.execute(update(...).where(id == k).values(tags=s))] *)
Definition execute_update_tags (s : Session) (k : option Z) (tg : pystr) : M Session :=
  issue (UPDATE_tags k tg);;
  mret {| rows := exec_update_tags (rows s) k tg; new := new s |}.

(** [session.execute(delete(...).where(id == k))] *)
Definition execute_delete (s : Session) (k : option Z) : M Session :=
  issue (DELETE k);;
  mret {| rows := exec_delete (rows s) k; new := new s |}.

(** [session.commit()]: the pending instance is flushed (INSERT), then the
    transaction is committed.  The result is the primary key the flush gave
    the pending instance, which is what its [id] attribute holds afterwards;
    when the flush fails the transaction is rolled back, the instance is
    expunged and its [id] stays [None]. *)
Definition commit (s : Session) : M (option Z) :=
  match new s with
  | None => issue COMMIT;; set_table (rows s);; mret None
  | Some i =>
      issue (INSERT (ModelNotes.inst_note i) (ModelNotes.inst_tags i));;
      match exec_insert (rows s) (ModelNotes.inst_note i) (ModelNotes.inst_tags i) with
      | inl orig => raise (IntegrityError orig)
      | inr (k, t) => issue COMMIT;; set_table t;; mret (Some k)
      end
  end.

(** ** The class [Record] *)

(** [f"A note with this text already exists." f"To change ... command."]:
    two adjacent literals, concatenated as they are. *)
Definition DUPLICATE_NOTE : pystr :=
  py "A note with this text already exists."
  ++ py "To change an existing note, use the <change-note> command.".

(** [t.value] *)
Definition value (t : text_attr) : res pyval :=
  match t with
  | TextObj v => Ok v
  | StrObj _ => Raise (AttributeError (py "'str' object has no attribute 'value'"))
  end.

(** [t] as the parameter of a statement: a [str] is bound as it is, a wrapper
    object is not a value the driver accepts. *)
Definition bind_param (t : text_attr) : res pystr :=
  match t with
  | StrObj s => Ok s
  | TextObj _ => Raise (StatementError (py "Error binding parameter: type 'Text' is not supported"))
  end.

(** [not i] for an optional integer: [None] and [0] are both false. *)
Definition falsy_id (i : option Z) : bool :=
  match i with
  | None => true
  | Some k => k =? 0
  end.

Section Record.

(** The wrappers [Text] and [Tag] live in modules that are not part of the
    sources: [Text s] is the [value] of [Text(s)], or the exception its
    validation raises; likewise [Tag]. *)
Variable Text : pystr → res pyval.
Variable Tag : pystr → res pyval.

(** [Record.__save] *)
Definition Record__save : M unit :=
  self ← get_self;
  let str_tags := json.dumps (tags self) in
  session ← db_session;
  note ← lift (value (text self));
  let session :=
    merge session {| ModelNotes.inst_id := None;
                     ModelNotes.inst_note := note;
                     ModelNotes.inst_tags := str_tags |} in
  record_id ←
    try_except (commit session)
      (λ e, match e with
            | IntegrityError orig =>
                if bool_decide (orig = UNIQUE_note)
                then raise (ValueError DUPLICATE_NOTE)
                else print e;; mret None
            | _ => raise e
            end);
  set_note_id record_id.

(** [[Tag(tag) for tag in tags] if tags else []], the tags as their values *)
Definition wrap_tags (tags : option (list pystr)) : res (list pyval) :=
  match tags with
  | Some (tag :: l) => mapM Tag (tag :: l)
  | _ => Ok []
  end.

(** [Record.__init__]: the new object, or the exception that ended the
    construction, and the world afterwards. *)
Definition Record_init (text : pystr) (tags : option (list pystr))
    (note_id : option Z) (w : World) : res RecordObj * World :=
  match Text text with
  | Raise e => (Raise e, w)
  | Ok t =>
      match wrap_tags tags with
      | Raise e => (Raise e, w)
      | Ok ts =>
          let self := {| text := TextObj t; tags := ts; note_id := note_id |} in
          if falsy_id note_id then
            match Record__save {| this := self; world := w |} with
            | (Ok _, st) => (Ok (this st), world st)
            | (Raise e, st) => (Raise e, world st)
            end
          else (Ok self, w)
      end
  end.

(** [Record.replace_text] *)
Definition replace_text (new_text : pystr) : M unit :=
  set_text (StrObj new_text);;
  session ← db_session;
  self ← get_self;
  note ← lift (bind_param (text self));
  session ← execute_update_note session (note_id self) note;
  commit session;; mret ().

(** [Record.add_tags] *)
Definition add_tags (new_tags : list pystr) : M unit :=
  wrapped ← lift (mapM Tag new_tags);
  self ← get_self;
  set_tags (tags self ++ wrapped);;
  self ← get_self;
  let str_tags := json.dumps (tags self) in
  session ← db_session;
  session ← execute_update_tags session (note_id self) str_tags;
  commit session;; mret ().

(** [Record.remove_record] *)
Definition remove_record : M unit :=
  session ← db_session;
  self ← get_self;
  session ← execute_delete session (note_id self);
  commit session;; mret ().

(** [Record.format_record] *)
Definition format_record : M pystr :=
  self ← get_self;
  let tags :=
    match tags self with
    | [] => [EN_DASH]
    | _ => join (py ", ") (py_str <$> tags self)
    end in
  v ← lift (value (text self));
  mret (py "Tags: " ++ tags ++ [LF; TAB] ++ py "Note: " ++ py_str v ++ [LF]).

End Record.


(** ** The class statements

    [RecordABC] declares five abstract methods and [Record] derives from it
    and from [DBSession].  Whether [Record] can be instantiated is decided
    when the class statements run: the compiler mangles the private names of
    each class body and [ABCMeta] collects the abstract names that are left
    without an implementation. *)
Module classes.

(** [s.lstrip('_')] *)
Fixpoint lstrip_underscores (s : string) : string :=
  match s with
  | EmptyString => EmptyString
  | String a s' => if Ascii.eqb a "_" then lstrip_underscores s' else s
  end.

(** An identifier is private when it starts with two underscores, does not
    end with two underscores and contains no dot. *)
Definition is_private (ident : string) : bool :=
  let chars := String.list_ascii_of_string ident in
  match chars with
  | a :: b :: _ =>
      Ascii.eqb a "_" && Ascii.eqb b "_"
      && negb (match rev chars with
               | y :: z :: _ => Ascii.eqb y "_" && Ascii.eqb z "_"
               | _ => false
               end)
      && negb (existsb (Ascii.eqb ".") chars)
  | _ => false
  end.

(** The name an identifier of the body of class [cls] is bound under: a
    private identifier gets an underscore and the class name without its
    leading underscores in front, unless nothing is left of the class
    name. *)
Definition mangle (cls ident : string) : string :=
  if is_private ident then
    match lstrip_underscores cls with
    | EmptyString => ident
    | stripped => String "_" (stripped +:+ ident)
    end
  else ident.

(** A class body as the methods it defines, in order: the identifier after
    [def] and whether the method is decorated with [@abstractmethod]. *)
Definition Body := list (string * bool).

(** The namespace of a class: the names its body binds and, for each, its
    [__isabstractmethod__]. *)
Definition Namespace := list (string * bool).

Definition namespace (cls : string) (body : Body) : Namespace :=
  (λ d : string * bool, (mangle cls d.1, d.2)) <$> body.

(** The binding of [name] in a namespace; a later [def] replaces an earlier
    one of the same name. *)
Definition binding (ns : Namespace) (name : string) : option bool :=
  snd <$> head (filter (λ d : string * bool, d.1 = name) (rev ns)).

(** [getattr(getattr(cls, name, None), "__isabstractmethod__", False)], the
    attribute being looked up along the method resolution order. *)
Fixpoint isabstract (mro : list Namespace) (name : string) : bool :=
  match mro with
  | [] => false
  | ns :: bases =>
      match binding ns name with
      | Some a => a
      | None => isabstract bases name
      end
  end.

(** [_abc._compute_abstract_methods]: the abstract names of the class's own
    namespace, and those abstract names of its bases that still resolve to
    an abstract method. *)
Definition compute_abstract_methods (own : Namespace)
    (bases_abstract : list (list string)) (mro : list Namespace) : list string :=
  (fst <$> filter (λ d : string * bool, d.2 = true) own)
  ++ filter (λ name, isabstract mro name = true) (concat bases_abstract).

(** [class RecordABC(ABC)] *)
Definition RecordABC_body : Body :=
  [("__save", true); ("replace_text", true); ("add_tags", true);
   ("remove_record", true); ("format_record", true)].

(** [class Record(RecordABC, DBSession)] *)
Definition Record_body : Body :=
  [("__init__", false); ("__save", false); ("replace_text", false);
   ("add_tags", false); ("remove_record", false); ("format_record", false);
   ("__repr__", false)].

Definition RecordABC_namespace : Namespace := namespace "RecordABC" RecordABC_body.
Definition Record_namespace : Namespace := namespace "Record" Record_body.

(** [RecordABC.__abstractmethods__]; its base [ABC] has no abstract method
    and nothing is looked up beyond the class's own namespace. *)
Definition RecordABC_abstractmethods : list string :=
  compute_abstract_methods RecordABC_namespace [[]] [RecordABC_namespace].

Section Record_class.

(** [DBSession] is not part of the sources: [DBSession_abstract] are its
    abstract names (none for a class that is not abstract) and
    [other_bases] the namespaces that follow [RecordABC] in the method
    resolution order of [Record]. *)
Variable DBSession_abstract : list string.
Variable other_bases : list Namespace.

(** [Record.__abstractmethods__] *)
Definition Record_abstractmethods : list string :=
  compute_abstract_methods Record_namespace
    [RecordABC_abstractmethods; DBSession_abstract]
    (Record_namespace :: RecordABC_namespace :: other_bases).

End Record_class.

End classes.

(** The outcome of the call [Record(text, tags, note_id)]: [object.__new__]
    refuses a class that has abstract methods left with a [TypeError] that
    names them, and [__init__] runs otherwise. *)
Inductive Instantiation :=
| TypeError_abstract (names : list string)
| Initialised (r : res RecordObj * World).

Definition Record_call (DBSession_abstract : list string)
    (other_bases : list classes.Namespace)
    (Text Tag : pystr → res pyval)
    (text : pystr) (tags : option (list pystr)) (note_id : option Z)
    (w : World) : Instantiation :=
  match classes.Record_abstractmethods DBSession_abstract other_bases with
  | [] => Initialised (Record_init Text Tag text tags note_id w)
  | names => TypeError_abstract names
  end.

(** ** Sequences of calls

    What a caller can do with an object it holds: call its methods one after
    the other, going on after a call that raised.  A state after a sequence
    of calls is a state the object and the world can really be in. *)
Inductive Call :=
| call_replace_text (new_text : pystr)
| call_add_tags (new_tags : list pystr)
| call_remove_record
| call_format_record.

Definition after_call (Tag : pystr → res pyval) (c : Call) (st : State) : State :=
  match c with
  | call_replace_text new_text => snd (replace_text new_text st)
  | call_add_tags new_tags => snd (add_tags Tag new_tags st)
  | call_remove_record => snd (remove_record st)
  | call_format_record => snd (format_record st)
  end.

Definition after_calls (Tag : pystr → res pyval) (cs : list Call) (st : State) : State :=
  foldl (λ st c, after_call Tag c st) st cs.

Definition is_replace_text (c : Call) : bool :=
  match c with
  | call_replace_text _ => true
  | _ => false
  end.

(** No two rows hold the same note. *)
Definition notes_unique (t : Table) : Prop :=
  ∀ j k q r, t !! j = Some q → t !! k = Some r →
             ModelNotes.note q = ModelNotes.note r → j = k.

(** The row of the object, if there is one, holds the JSON encoding of the
    tags of the object. *)
Definition tags_in_sync (st : State) : Prop :=
  ∀ k r, note_id (this st) = Some k → table (world st) !! k = Some r →
         ModelNotes.tags r = json.dumps (tags (this st)).

(** ** Reading back what [json.dumps] writes

    A reader for one item of the text of [json.dumps]: a string literal
    with its escapes, or [null].  It serves to show that the text determines
    the values. *)
Module reader.

(** The value of a hexadecimal digit written by [json.hex_digit]. *)
Definition unhex (d : N) : N := (if d <? 58 then d - 48 else d - 87)%N.

Definition read4 (a b c d : N) : N :=
  (((unhex a * 16 + unhex b) * 16 + unhex c) * 16 + unhex d)%N.

(** The character that the letter after a backslash stands for. *)
Definition unescape (e : N) : N :=
  (if e =? 98 then 8
   else if e =? 102 then 12
   else if e =? 110 then 10
   else if e =? 114 then 13
   else if e =? 116 then 9
   else e)%N.

Definition prepend (u : N) (r : option (pystr * pystr)) : option (pystr * pystr) :=
  match r with
  | Some (us, rest) => Some (u :: us, rest)
  | None => None
  end.

(** The text of a string literal after its opening quote, up to the closing
    quote, with every escape resolved (an escape of four hexadecimal digits
    gives one UTF-16 unit), and the text after the closing quote. *)
Fixpoint units (s : pystr) : option (pystr * pystr) :=
  match s with
  | [] => None
  | c :: rest =>
      if (c =? 34)%N then Some ([], rest)
      else if (c =? 92)%N then
        match rest with
        | [] => None
        | e :: rest1 =>
            if (e =? 117)%N then
              match rest1 with
              | a :: b :: c' :: d :: rest2 => prepend (read4 a b c' d) (units rest2)
              | _ => None
              end
            else prepend (unescape e) (units rest1)
        end
      else prepend c (units rest)
  end.

Definition is_high (u : N) : bool := ((55296 <=? u) && (u <=? 56319))%N.
Definition is_low (u : N) : bool := ((56320 <=? u) && (u <=? 57343))%N.

(** A high surrogate followed by a low one is one character. *)
Fixpoint join_surrogates (us : pystr) : pystr :=
  match us with
  | [] => []
  | hi :: rest =>
      match rest with
      | [] => [hi]
      | lo :: rest' =>
          if is_high hi && is_low lo
          then (65536 + ((hi - 55296) * 1024 + (lo - 56320)))%N :: join_surrogates rest'
          else hi :: join_surrogates rest
      end
  end.

(** The UTF-16 units that [json.escape_char] spells out for a character. *)
Definition utf16_units (c : N) : pystr :=
  (if c <? 65536 then [c]
   else
     let n := c - 65536 in
     [N.lor 55296 (N.land (N.shiftr n 10) 1023); N.lor 56320 (N.land n 1023)])%N.

(** One item at the head of a text, and the text after it. *)
Definition item (s : pystr) : option (pyval * pystr) :=
  match s with
  | c :: rest =>
      if (c =? 34)%N then
        match units rest with
        | Some (us, rest') => Some (PyStr (join_surrogates us), rest')
        | None => None
        end
      else
        match s with
        | n :: u :: l :: l' :: rest' =>
            if bool_decide ([n; u; l; l'] = py "null") then Some (PyNone, rest') else None
        | _ => None
        end
  | [] => None
  end.

End reader.

(** A Unicode scalar value: a code point that is not a surrogate. *)
Definition scalar (c : N) : Prop := (c < 1114112 ∧ ¬ (55296 ≤ c ≤ 57343))%N.

(** A value all of whose characters are scalar values. *)
Definition scalar_value (v : pyval) : Prop :=
  match v with
  | PyNone => True
  | PyStr s => Forall scalar s
  end.

(** A printable ASCII character, from the space to the tilde. *)
Definition printable (c : N) : Prop := (32 ≤ c ≤ 126)%N.

(** ** Sample collaborators and worlds *)

(** A wrapper that accepts every string and keeps it as its value. *)
Definition accept (s : pystr) : res pyval := Ok (PyStr s).

(** A wrapper whose value is [None] whatever it is given. *)
Definition blank (_ : pystr) : res pyval := Ok PyNone.

(** A wrapper that accepts no string. *)
Definition reject (s : pystr) : res pyval := Raise (ValidationError s).

(** A wrapper that accepts every string but the empty one. *)
Definition nonempty (s : pystr) : res pyval :=
  match s with
  | [] => Raise (ValidationError (py "empty"))
  | _ => Ok (PyStr s)
  end.

Definition empty_world : World := {| table := ∅; issued := []; stdout := [] |}.

(** The world after [Record("hello")] in the empty world. *)
Definition hello_world : World :=
  snd (Record_init accept accept (py "hello") None None empty_world).

(** The object that [Record("hello")] returned there. *)
Definition hello_record : RecordObj :=
  {| text := TextObj (PyStr (py "hello")); tags := []; note_id := Some 1 |}.

Definition hello_state : State := {| this := hello_record; world := hello_world |}.

(** The world after a further [Record("world")], and that object. *)
Definition two_notes_world : World :=
  snd (Record_init accept accept (py "world") None None hello_world).

Definition world_record : RecordObj :=
  {| text := TextObj (PyStr (py "world")); tags := []; note_id := Some 2 |}.

Definition world_state : State := {| this := world_record; world := two_notes_world |}.

(** [hello_state] after [add_tags(["a"])]. *)
Definition tagged_a_state : State := snd (add_tags accept [py "a"] hello_state).

(** The object that [Record("hello")] returns when the store refuses the row
    for a reason other than its text being taken. *)
Definition unsaved_record : RecordObj :=
  {| text := TextObj PyNone; tags := []; note_id := None |}.

Definition unsaved_state : State := {| this := unsaved_record; world := hello_world |}.

(** [hello_state] after [remove_record()]: the object keeps the identifier
    of the row that is gone. *)
Definition removed_state : State := snd (remove_record hello_state).

(** * Properties *)

(** ** [json.dumps] on samples *)

Example dumps_empty : json.dumps [] = py "[]".
Proof. reflexivity. Qed.

(** U+00E9 is written as a four-digit escape, [None] as [null]. *)
Example dumps_escape :
  json.dumps [PyStr [233%N]; PyNone]
  = py "[" ++ [34%N] ++ py "\u00e9" ++ [34%N] ++ py ", null]".
Proof. reflexivity. Qed.

(** U+1F600 is written as the surrogate pair d83d, de00. *)
Example dumps_astral :
  json.dumps [PyStr [128512%N]]
  = py "[" ++ [34%N] ++ py "\ud83d\ude00" ++ [34%N] ++ py "]".
Proof. reflexivity. Qed.

(** ** The store *)

Lemma max_id_ge (t : Table) (k : Z) (r : ModelNotes.Row) :
  t !! k = Some r → ∃ m, max_id t = Some m ∧ k ≤ m.
Proof.
  revert k r. unfold max_id.
  apply (map_fold_weak_ind
           (λ acc (m : Table), ∀ k r, m !! k = Some r → ∃ x, acc = Some x ∧ k ≤ x)).
  - intros k r H. by rewrite lookup_empty in H.
  - intros i x m acc Hi IH k r Hk.
    destruct (decide (i = k)) as [->|Hne].
    + destruct acc as [a|]; simpl; eexists; split; try reflexivity; lia.
    + rewrite lookup_insert_ne in Hk by done.
      destruct (IH k r Hk) as (a & -> & Hle). simpl.
      eexists; split; [reflexivity | lia].
Qed.

(** The key given to a new row is not in use. *)
Lemma next_id_fresh (t : Table) : t !! next_id t = None.
Proof.
  destruct (t !! next_id t) as [r|] eqn:E; [|done].
  apply max_id_ge in E as (m & Hm & Hle).
  unfold next_id in Hle. rewrite Hm in Hle. lia.
Qed.

Lemma note_taken_true (t : Table) (s : pystr) :
  note_taken t s = true ↔ ∃ k r, t !! k = Some r ∧ ModelNotes.note r = s.
Proof.
  unfold note_taken. rewrite bool_decide_eq_true. apply map_Exists_lookup.
Qed.

Lemma note_taken_false (t : Table) (s : pystr) :
  note_taken t s = false ↔ ∀ k r, t !! k = Some r → ModelNotes.note r ≠ s.
Proof.
  rewrite <- not_true_iff_false, note_taken_true. split.
  - intros H k r Hk Hr. apply H. eauto.
  - intros H (k & r & Hk & Hr). exact (H k r Hk Hr).
Qed.


Lemma where_row_None (t : Table) (i : option Z) :
  where_row t i = None ↔ ∀ k, i = Some k → t !! k = None.
Proof.
  destruct i as [k|]; simpl; [|naive_solver].
  destruct (t !! k) eqn:E; simpl; naive_solver.
Qed.

Lemma where_row_Some (t : Table) (k : Z) (r : ModelNotes.Row) :
  t !! k = Some r → where_row t (Some k) = Some (k, r).
Proof. intros H. simpl. by rewrite H. Qed.

(** A literal is free of surrogates. *)
Lemma scalar_literal (l : pystr) :
  forallb (λ c, (c <? 1114112) && negb ((55296 <=? c) && (c <=? 57343)))%N l = true →
  Forall scalar l.
Proof.
  intros H. apply Forall_forall. intros c Hc.
  rewrite forallb_forall in H. apply list_elem_of_In in Hc. apply H in Hc.
  apply andb_true_iff in Hc as [H1 H2]. apply N.ltb_lt in H1.
  apply negb_true_iff, andb_false_iff in H2. unfold scalar.
  split; [done|]. destruct H2 as [H2|H2]; apply N.leb_gt in H2; lia.
Qed.

(** ** Running a method symbolically *)

(** Unfolds the methods, the session and the monad down to the statements run
    against the table, which stay folded. *)
Ltac run :=
  cbv [Record_init Record__save falsy_id replace_text add_tags remove_record format_record
       db_session merge execute_update_note execute_update_tags execute_delete commit
       get_self get_table set_text set_tags set_note_id set_table issue print
       raise lift try_except value bind_param
       mbind mret M_bind M_ret
       this world table issued stdout text tags note_id rows new
       ModelNotes.inst_id ModelNotes.inst_note ModelNotes.inst_tags].

Section RecordProperties.

Variable Text : pystr → res pyval.
Variable Tag : pystr → res pyval.

Lemma format_record_TextObj (v : pyval) (ts : list pyval) (i : option Z) (w : World) :
  let st := {| this := {| text := TextObj v; tags := ts; note_id := i |}; world := w |} in
  format_record st =
    (Ok (py "Tags: "
         ++ match ts with [] => [EN_DASH] | _ => join (py ", ") (py_str <$> ts) end
         ++ [LF; TAB] ++ py "Note: " ++ py_str v ++ [LF]), st).
Proof. reflexivity. Qed.

Lemma format_record_StrObj (s : pystr) (ts : list pyval) (i : option Z) (w : World) :
  let st := {| this := {| text := StrObj s; tags := ts; note_id := i |}; world := w |} in
  format_record st =
    (Raise (AttributeError (py "'str' object has no attribute 'value'")), st).
Proof. reflexivity. Qed.

Lemma replace_text_sets_text (new_text : pystr) (st : State) :
  text (this (snd (replace_text new_text st))) = StrObj new_text.
Proof.
  run. destruct (exec_update_note _ _ _); reflexivity.
Qed.

(** *** The methods, by what they do to the object and the world *)

Lemma replace_text_run (new_text : pystr) (st : State) :
  replace_text new_text st =
    let i := note_id (this st) in
    let w := world st in
    let self := {| text := StrObj new_text; tags := tags (this st); note_id := i |} in
    let sent := issued w ++ [UPDATE_note i new_text] in
    match exec_update_note (table w) i new_text with
    | inl orig =>
        (Raise (IntegrityError orig),
         {| this := self;
            world := {| table := table w; issued := sent; stdout := stdout w |} |})
    | inr t =>
        (Ok (),
         {| this := self;
            world := {| table := t; issued := sent ++ [COMMIT]; stdout := stdout w |} |})
    end.
Proof. run. destruct (exec_update_note _ _ _); reflexivity. Qed.

Lemma add_tags_run (new_tags : list pystr) (st : State) :
  add_tags Tag new_tags st =
    match mapM Tag new_tags with
    | Raise e => (Raise e, st)
    | Ok wrapped =>
        let i := note_id (this st) in
        let w := world st in
        let ts := tags (this st) ++ wrapped in
        let str_tags := json.dumps ts in
        (Ok (),
         {| this := {| text := text (this st); tags := ts; note_id := i |};
            world := {| table := exec_update_tags (table w) i str_tags;
                        issued := (issued w ++ [UPDATE_tags i str_tags]) ++ [COMMIT];
                        stdout := stdout w |} |})
    end.
Proof. run. destruct (mapM Tag new_tags); reflexivity. Qed.

Lemma remove_record_run (st : State) :
  remove_record st =
    let i := note_id (this st) in
    let w := world st in
    (Ok (),
     {| this := this st;
        world := {| table := exec_delete (table w) i;
                    issued := (issued w ++ [DELETE i]) ++ [COMMIT];
                    stdout := stdout w |} |}).
Proof. reflexivity. Qed.

(** *** Construction *)

(** What a construction that saves does, by the outcome of the INSERT. *)
Lemma Record_init_save (text : pystr) (tags : option (list pystr)) (i : option Z)
    (w : World) (v : pyval) (ts : list pyval) :
  Text text = Ok v →
  wrap_tags Tag tags = Ok ts →
  falsy_id i = true →
  Record_init Text Tag text tags i w =
    let str_tags := json.dumps ts in
    let sent := issued w ++ [INSERT v str_tags] in
    match exec_insert (table w) v str_tags with
    | inl orig =>
        if bool_decide (orig = UNIQUE_note)
        then (Raise (ValueError DUPLICATE_NOTE),
              {| table := table w; issued := sent; stdout := stdout w |})
        else (Ok {| text := TextObj v; tags := ts; note_id := None |},
              {| table := table w; issued := sent;
                 stdout := stdout w ++ [IntegrityError orig] |})
    | inr (k, t) =>
        (Ok {| text := TextObj v; tags := ts; note_id := Some k |},
         {| table := t; issued := sent ++ [COMMIT]; stdout := stdout w |})
    end.
Proof.
  intros HT HG Hi. unfold Record_init. rewrite HT, HG, Hi. run.
  destruct (exec_insert _ _ _) as [orig|[k t]]; [|reflexivity].
  run. destruct (bool_decide _); reflexivity.
Qed.

(** What a construction with an identifier that counts as given does. *)
Lemma Record_init_wrap (text : pystr) (tags : option (list pystr)) (i : option Z)
    (w : World) :
  falsy_id i = false →
  Record_init Text Tag text tags i w =
    (t ← Text text; ts ← wrap_tags Tag tags;
     mret {| text := TextObj t; tags := ts; note_id := i |}, w).
Proof.
  intros Hi. unfold Record_init. rewrite Hi.
  destruct (Text text) as [t|e]; [|reflexivity].
  destruct (wrap_tags Tag tags) as [ts|e]; reflexivity.
Qed.

(** C1 (amended).  When the text of a construction without an identifier
    is already the note of a stored row, the commit of the insert violates
    the uniqueness constraint and the construction fails with a
    [ValueError] whose message starts with the sentence
    [A note with this text already exists.] and ends with the sentence
    [To change an existing note, use the <change-note> command.]; the table
    is as before, the row that holds the text included. *)
Theorem save_duplicate_note (text : pystr) (tags : option (list pystr)) (w : World)
    (s : pystr) (ts : list pyval) (k : Z) (r : ModelNotes.Row) :
  Text text = Ok (PyStr s) →
  wrap_tags Tag tags = Ok ts →
  table w !! k = Some r →
  ModelNotes.note r = s →
  ∃ sep w',
    Record_init Text Tag text tags None w =
      (Raise (ValueError
                (py "A note with this text already exists." ++ sep
                 ++ py "To change an existing note, use the <change-note> command.")),
       w')
    ∧ table w' = table w
    ∧ table w' !! k = Some r.
Proof.
  intros HT HG Hk Hr. exists [].
  rewrite (Record_init_save _ _ None _ _ _ HT HG eq_refl). cbv zeta.
  assert (note_taken (table w) s = true) as Htaken
    by (apply note_taken_true; eauto).
  unfold exec_insert. rewrite Htaken.
  rewrite bool_decide_eq_true_2 by reflexivity.
  eexists. split; [reflexivity|]. split; [reflexivity | exact Hk].
Qed.

(** What [__init__] is written to do without an identifier, once it runs
    (the call of the class does not get that far, see
    [classes.Record_abstractmethods]): with a text whose validated value is
    a string free of surrogates that no stored row holds, and with tags
    that validate, it adds exactly one row, under a key that was free, and
    the object's [note_id] is that key; the row's [note] is the validated
    text value and its [tags] the JSON encoding of the tag values. *)
Lemma init_persists_one_row (text : pystr) (tags : option (list pystr)) (w : World)
    (s : pystr) (ts : list pyval) :
  Text text = Ok (PyStr s) →
  Forall scalar s →
  wrap_tags Tag tags = Ok ts →
  (∀ k r, table w !! k = Some r → ModelNotes.note r ≠ s) →
  ∃ k w',
    let row := {| ModelNotes.note := s; ModelNotes.tags := json.dumps ts |} in
    Record_init Text Tag text tags None w =
      (Ok {| text := TextObj (PyStr s); tags := ts; note_id := Some k |}, w')
    ∧ table w !! k = None
    ∧ table w' = <[k := row]> (table w)
    ∧ table w' !! k = Some row
    ∧ size (table w') = S (size (table w)).
Proof.
  intros HT _ HG Hfree. exists (next_id (table w)).
  rewrite (Record_init_save _ _ None _ _ _ HT HG eq_refl). cbv zeta.
  apply note_taken_false in Hfree.
  unfold exec_insert. rewrite Hfree.
  eexists. split; [reflexivity|]. simpl.
  pose proof (next_id_fresh (table w)) as Hfresh.
  split; [exact Hfresh|]. split; [reflexivity|].
  split; [apply lookup_insert_eq | by apply map_size_insert_None].
Qed.

(** What [__init__] does with an identifier other than 0, once it runs: no
    save; it wraps the text and the tags, keeps the identifier, and leaves
    the world as it was, so it sends no statement. *)
Lemma init_with_id_no_save (text : pystr) (tags : option (list pystr)) (k : Z)
    (w : World) :
  k ≠ 0 →
  Record_init Text Tag text tags (Some k) w =
    (t ← Text text; ts ← wrap_tags Tag tags;
     mret {| text := TextObj t; tags := ts; note_id := Some k |}, w).
Proof.
  intros Hk. apply Record_init_wrap. simpl. by apply Z.eqb_neq.
Qed.

(** C8.  When the commit of the insert fails with an integrity error whose
    message is not that of the uniqueness constraint on [note], the
    construction returns normally: the error was printed, the table is as
    before and [note_id] is [None]. *)
Theorem save_other_integrity_error (text : pystr) (tags : option (list pystr))
    (w : World) (v : pyval) (ts : list pyval) (orig : pystr) :
  Text text = Ok v →
  wrap_tags Tag tags = Ok ts →
  exec_insert (table w) v (json.dumps ts) = inl orig →
  orig ≠ UNIQUE_note →
  ∃ w',
    Record_init Text Tag text tags None w =
      (Ok {| text := TextObj v; tags := ts; note_id := None |}, w')
    ∧ stdout w' = stdout w ++ [IntegrityError orig]
    ∧ table w' = table w.
Proof.
  intros HT HG Hins Horig.
  rewrite (Record_init_save _ _ None _ _ _ HT HG eq_refl). cbv zeta.
  rewrite Hins, bool_decide_eq_false_2 by exact Horig.
  eexists. split; [reflexivity|]. split; reflexivity.
Qed.

(** *** Mutation *)

Lemma exec_without_row (t : Table) (i : option Z) :
  (∀ k, i = Some k → t !! k = None) →
  (∀ s, exec_update_note t i s = inr t)
  ∧ (∀ tg, exec_update_tags t i tg = t)
  ∧ exec_delete t i = t.
Proof.
  intros H. apply where_row_None in H.
  unfold exec_update_note, exec_update_tags, exec_delete. by rewrite H.
Qed.

(** C4.  [add_tags] on a persisted object, with tags that validate, extends
    the tag list of the object at its end with the new values, in their
    order and with their duplicates, and leaves the [tags] column of the
    object's row equal to the JSON encoding of that whole list; the row's
    [note] and every other row are as before. *)
Theorem add_tags_keeps_column_in_sync (new_tags : list pystr) (wrapped : list pyval)
    (st : State) (k : Z) (r : ModelNotes.Row) :
  mapM Tag new_tags = Ok wrapped →
  note_id (this st) = Some k →
  table (world st) !! k = Some r →
  ∃ st',
    add_tags Tag new_tags st = (Ok (), st')
    ∧ tags (this st') = tags (this st) ++ wrapped
    ∧ table (world st') !! k =
        Some {| ModelNotes.note := ModelNotes.note r;
                ModelNotes.tags := json.dumps (tags (this st')) |}
    ∧ ∀ j, j ≠ k → table (world st') !! j = table (world st) !! j.
Proof.
  intros HG Hid Hk. rewrite add_tags_run, HG. cbv zeta.
  eexists. split; [reflexivity|]. split; [reflexivity|]. simpl.
  unfold exec_update_tags. rewrite Hid, (where_row_Some _ _ _ Hk).
  split; [apply lookup_insert_eq|].
  intros j Hj. by apply lookup_insert_ne.
Qed.


(** The other case of [replace_text] on a persisted object: [new_text] is
    the note of another row, the UPDATE violates the uniqueness constraint,
    the error leaves the method and the table is as before. *)
Lemma replace_text_collision (new_text : pystr) (st : State) (k j : Z)
    (r q : ModelNotes.Row) :
  note_id (this st) = Some k →
  table (world st) !! k = Some r →
  j ≠ k → table (world st) !! j = Some q → ModelNotes.note q = new_text →
  ∃ st',
    replace_text new_text st = (Raise (IntegrityError UNIQUE_note), st')
    ∧ table (world st') = table (world st).
Proof.
  intros Hid Hk Hne Hj Hq. rewrite replace_text_run. cbv zeta.
  unfold exec_update_note. rewrite Hid, (where_row_Some _ _ _ Hk).
  assert (note_taken (delete k (table (world st))) new_text = true) as ->.
  { apply note_taken_true. exists j, q. split; [|done].
    apply lookup_delete_Some. done. }
  eexists. split; reflexivity.
Qed.

(** C6.  When the [note_id] of the object identifies no stored row (it is
    [None], or it is an integer of the signed 64-bit range, as the key of a
    row that was deleted is, and no row has that key), [replace_text] with
    a text free of surrogates, and [add_tags] with tags that validate,
    return normally and leave the table as it was. *)
Theorem update_without_row_is_noop (new_text : pystr) (new_tags : list pystr)
    (wrapped : list pyval) (st : State) :
  (∀ k, note_id (this st) = Some k → in_int64 k ∧ table (world st) !! k = None) →
  Forall scalar new_text →
  mapM Tag new_tags = Ok wrapped →
  (∃ st', replace_text new_text st = (Ok (), st')
          ∧ table (world st') = table (world st))
  ∧ (∃ st', add_tags Tag new_tags st = (Ok (), st')
            ∧ table (world st') = table (world st)).
Proof.
  intros Hnone _ HG.
  assert (∀ k, note_id (this st) = Some k → table (world st) !! k = None) as Hrow
    by (intros k Hk; by destruct (Hnone k Hk)).
  destruct (exec_without_row _ _ Hrow) as (Hnote & Htags & _). split.
  - rewrite replace_text_run. cbv zeta. rewrite Hnote.
    eexists. split; reflexivity.
  - rewrite add_tags_run, HG. cbv zeta. rewrite Htags.
    eexists. split; reflexivity.
Qed.


(** *** Display *)

(** C7.  [format_record] leaves the object and the world as they are,
    whatever they are; with
    the tag values [x] and [y] and the text value [hello] it returns
    [Tags: x, y], a line feed, a tab, [Note: hello] and a line feed, and
    with no tags the same with an en dash in the place of the tags. *)
Theorem format_record_pure (i : option Z) (w : World) :
  let hello := TextObj (PyStr (py "hello")) in
  let tagged :=
    {| this := {| text := hello; tags := [PyStr (py "x"); PyStr (py "y")]; note_id := i |};
       world := w |} in
  let untagged :=
    {| this := {| text := hello; tags := []; note_id := i |}; world := w |} in
  format_record tagged =
    (Ok (py "Tags: x, y" ++ [LF; TAB] ++ py "Note: hello" ++ [LF]), tagged)
  ∧ format_record untagged =
      (Ok (py "Tags: " ++ [EN_DASH] ++ [LF; TAB] ++ py "Note: hello" ++ [LF]), untagged)
  ∧ ∀ st, snd (format_record st) = st.
Proof.
  split; [reflexivity|]. split; [reflexivity|].
  intros [[[v|s] ts j] w0]; reflexivity.
Qed.

(** C10.  After [replace_text new_text], however it ended, the [text] of
    the object is the bare string [new_text], and [format_record] then
    raises [AttributeError] and changes nothing; [format_record] returns a
    string exactly when [text] is still a [Text] wrapper. *)
Theorem format_record_after_replace_text (new_text : pystr) (st : State) :
  let st' := snd (replace_text new_text st) in
  text (this st') = StrObj new_text
  ∧ (∃ msg, format_record st' = (Raise (AttributeError msg), st'))
  ∧ ∀ st0, (∃ s, fst (format_record st0) = Ok s)
           ↔ (∃ v, text (this st0) = TextObj v).
Proof.
  cbv zeta. pose proof (replace_text_sets_text new_text st) as Htext.
  split; [exact Htext|]. split.
  - destruct (snd (replace_text new_text st)) as [[t ts i] w].
    simpl in Htext. subst t. eexists. apply format_record_StrObj.
  - intros [[t ts i] w]. destruct t as [v|s0].
    + rewrite format_record_TextObj. simpl. split; eauto.
    + rewrite format_record_StrObj. simpl.
      split; intros [x Hx]; discriminate.
Qed.

End RecordProperties.

(** C1, on an instance: a second [Record("hello")]. *)
Lemma save_duplicate_note_witness :
  ∃ sep w',
    Record_init accept accept (py "hello") None None hello_world =
      (Raise (ValueError
                (py "A note with this text already exists." ++ sep
                 ++ py "To change an existing note, use the <change-note> command.")),
       w')
    ∧ table w' = table hello_world
    ∧ table w' !! 1 =
        Some {| ModelNotes.note := py "hello"; ModelNotes.tags := py "[]" |}.
Proof.
  apply (save_duplicate_note accept accept (py "hello") None hello_world
           (py "hello") []); reflexivity.
Defined.

(** C1 as the specification words it fails: the message of the second
    [Record("hello")] is not the sentence pair of the specification. *)
Lemma duplicate_note_message_differs :
  table hello_world !! 1 =
    Some {| ModelNotes.note := py "hello"; ModelNotes.tags := py "[]" |}
  ∧ exec_insert (table hello_world) (PyStr (py "hello")) (json.dumps []) = inl UNIQUE_note
  ∧ ∃ m,
      fst (Record_init accept accept (py "hello") None None hello_world) =
        Raise (ValueError m)
      ∧ m ≠ py "A note with this text already exists. To change an existing note, use the change-note command.".
Proof.
  split; [reflexivity|]. split; [reflexivity|].
  eexists. split; [reflexivity|]. discriminate.
Qed.

(** [__init__] on an instance: the text [world] with the tags [x] and [y],
    after the note [hello]. *)
Lemma init_persists_one_row_witness :
  ∃ k w',
    let row := {| ModelNotes.note := py "world";
                  ModelNotes.tags := json.dumps [PyStr (py "x"); PyStr (py "y")] |} in
    Record_init accept accept (py "world") (Some [py "x"; py "y"]) None hello_world =
      (Ok {| text := TextObj (PyStr (py "world"));
             tags := [PyStr (py "x"); PyStr (py "y")];
             note_id := Some k |}, w')
    ∧ table hello_world !! k = None
    ∧ table w' = <[k := row]> (table hello_world)
    ∧ table w' !! k = Some row
    ∧ size (table w') = S (size (table hello_world)).
Proof.
  apply (init_persists_one_row accept accept (py "world") (Some [py "x"; py "y"])
           hello_world (py "world") [PyStr (py "x"); PyStr (py "y")]).
  - reflexivity.
  - by apply scalar_literal.
  - reflexivity.
  - apply note_taken_false. reflexivity.
Defined.

(** [__init__] on an instance: the text [hello], the tag [x] and the
    identifier 7. *)
Lemma init_with_id_no_save_witness :
  Record_init accept accept (py "hello") (Some [py "x"]) (Some 7) empty_world =
    (Ok {| text := TextObj (PyStr (py "hello")); tags := [PyStr (py "x")];
           note_id := Some 7 |},
     empty_world).
Proof.
  apply (init_with_id_no_save accept accept (py "hello") (Some [py "x"]) 7 empty_world).
  lia.
Defined.

(** C4, on an instance: [add_tags(["b"])] after [add_tags(["a"])]. *)
Lemma add_tags_keeps_column_in_sync_witness :
  ∃ st',
    add_tags accept [py "b"] tagged_a_state = (Ok (), st')
    ∧ tags (this st') = tags (this tagged_a_state) ++ [PyStr (py "b")]
    ∧ table (world st') !! 1 =
        Some {| ModelNotes.note := py "hello";
                ModelNotes.tags := json.dumps (tags (this st')) |}
    ∧ ∀ j, j ≠ 1 → table (world st') !! j = table (world tagged_a_state) !! j.
Proof.
  apply (add_tags_keeps_column_in_sync accept [py "b"] [PyStr (py "b")] tagged_a_state 1
           {| ModelNotes.note := py "hello"; ModelNotes.tags := json.dumps [PyStr (py "a")] |});
    reflexivity.
Defined.

(** [add_tags(["a"])] then [add_tags(["b"])] on the object of
    [Record("hello")]: both tags are kept, in that order, and the column
    holds the JSON text of the array of [a] and [b]. *)
Example add_tags_a_then_b :
  let st2 := snd (add_tags accept [py "b"] tagged_a_state) in
  tags (this st2) = [PyStr (py "a"); PyStr (py "b")]
  ∧ ModelNotes.tags <$> table (world st2) !! 1
    = Some [91; 34; 97; 34; 44; 32; 34; 98; 34; 93]%N.
Proof. split; reflexivity. Qed.



(** C6, on an instance: the object whose row was removed, identifier 1. *)
Lemma update_without_row_is_noop_witness :
  (∃ st', replace_text (py "new") removed_state = (Ok (), st')
          ∧ table (world st') = table (world removed_state))
  ∧ (∃ st', add_tags accept [py "a"] removed_state = (Ok (), st')
            ∧ table (world st') = table (world removed_state)).
Proof.
  apply (update_without_row_is_noop accept (py "new") [py "a"] [PyStr (py "a")]
           removed_state).
  - intros k H. assert (k = 1) as -> by (vm_compute in H; congruence).
    split; [unfold in_int64; lia | reflexivity].
  - by apply scalar_literal.
  - reflexivity.
Defined.

(** C8, on an instance: a text wrapper whose value is [None] makes the insert
    violate NOT NULL. *)
Lemma save_other_integrity_error_witness :
  ∃ w',
    Record_init blank accept (py "hello") None None empty_world = (Ok unsaved_record, w')
    ∧ stdout w' = stdout empty_world ++ [IntegrityError NOT_NULL_note]
    ∧ table w' = table empty_world.
Proof.
  apply (save_other_integrity_error blank accept (py "hello") None empty_world
           PyNone [] NOT_NULL_note).
  - reflexivity.
  - reflexivity.
  - reflexivity.
  - intros H. vm_compute in H. discriminate H.
Defined.


(** ** Validation comes first

    A tag that does not validate ends a construction, and [add_tags], before
    any statement is sent: the world, and for [add_tags] the object, are as
    they were. *)
Example init_invalid_tag :
  Record_init accept reject (py "hello") (Some [py "x"]) None empty_world
  = (Raise (ValidationError (py "x")), empty_world).
Proof. reflexivity. Qed.

Example add_tags_invalid_tag :
  add_tags reject [py "x"] hello_state = (Raise (ValidationError (py "x")), hello_state).
Proof. reflexivity. Qed.


(** * Further properties *)

(** ** Instantiation *)

(** X1.  The call [Record(text, tags, note_id)] never reaches [__init__]:
    the abstract [__save] of [RecordABC] is bound as [_RecordABC__save],
    the [__save] of [Record] as [_Record__save], so [Record] is left with
    an abstract method and [object.__new__] raises [TypeError] naming it,
    whatever [DBSession] is and whatever the arguments are. *)
Theorem Record_is_abstract (DBSession_abstract : list string)
    (other_bases : list classes.Namespace) (Text Tag : pystr → res pyval)
    (text : pystr) (tags : option (list pystr)) (note_id : option Z) (w : World) :
  classes.binding classes.Record_namespace "_Record__save" = Some false
  ∧ classes.binding classes.Record_namespace "_RecordABC__save" = None
  ∧ ∃ more,
      Record_call DBSession_abstract other_bases Text Tag text tags note_id w
      = TypeError_abstract ("_RecordABC__save" :: more).
Proof.
  split; [reflexivity|]. split; [reflexivity|].
  unfold Record_call, classes.Record_abstractmethods, classes.compute_abstract_methods.
  eexists. reflexivity.
Qed.

(** C2.  [Record(text, tags)], the construction without an identifier,
    raises [TypeError] for every text, every tags and every world, because
    [_RecordABC__save] is left abstract: [__init__] does not run, so no row
    is persisted and no object with a [note_id] comes back. *)
Theorem construction_without_id_raises (Text Tag : pystr → res pyval) (text : pystr)
    (tags : option (list pystr)) (w : World) :
  Record_call [] [] Text Tag text tags None w
  = TypeError_abstract ["_RecordABC__save"].
Proof. reflexivity. Qed.

(** C3.  [Record(text, tags, note_id)] with an identifier raises the same
    [TypeError]: [__init__] does not run, so the text and the tags are not
    wrapped and the identifier is not recorded.  And [__init__] itself, run
    with the identifier 0, takes the save path, because its guard tests the
    truth value of [note_id]: for the text [hello] in the empty world it
    sends INSERT and COMMIT. *)
Theorem construction_with_id_raises (Text Tag : pystr → res pyval) (text : pystr)
    (tags : option (list pystr)) (k : Z) (w : World) :
  Record_call [] [] Text Tag text tags (Some k) w
  = TypeError_abstract ["_RecordABC__save"]
  ∧ issued (snd (Record_init accept accept (py "hello") None (Some 0) empty_world))
    = [INSERT (PyStr (py "hello")) (py "[]"); COMMIT].
Proof. split; reflexivity. Qed.

(** ** The statements, one at a time *)

Lemma exec_update_note_cases (t : Table) (i : option Z) (s : pystr) :
  (where_row t i = None ∧ exec_update_note t i s = inr t)
  ∨ ∃ k r, i = Some k ∧ t !! k = Some r
      ∧ ((note_taken (delete k t) s = true ∧ exec_update_note t i s = inl UNIQUE_note)
         ∨ (note_taken (delete k t) s = false
            ∧ exec_update_note t i s =
                inr (<[k := {| ModelNotes.note := s;
                               ModelNotes.tags := ModelNotes.tags r |}]> t))).
Proof.
  unfold exec_update_note. destruct i as [k|]; [|by left].
  simpl. destruct (t !! k) as [r|] eqn:Hk; [|by left]. simpl.
  right. exists k, r. split; [done|]. split; [done|].
  destruct (note_taken (delete k t) s); [by left | by right].
Qed.

Lemma exec_update_tags_cases (t : Table) (i : option Z) (tg : pystr) :
  (where_row t i = None ∧ exec_update_tags t i tg = t)
  ∨ ∃ k r, i = Some k ∧ t !! k = Some r
      ∧ exec_update_tags t i tg =
          <[k := {| ModelNotes.note := ModelNotes.note r; ModelNotes.tags := tg |}]> t.
Proof.
  unfold exec_update_tags. destruct i as [k|]; [|by left].
  simpl. destruct (t !! k) as [r|] eqn:Hk; [|by left]. simpl.
  right. by exists k, r.
Qed.

Lemma exec_delete_cases (t : Table) (i : option Z) :
  (where_row t i = None ∧ exec_delete t i = t)
  ∨ ∃ k r, i = Some k ∧ t !! k = Some r ∧ exec_delete t i = delete k t.
Proof.
  unfold exec_delete. destruct i as [k|]; [|by left].
  simpl. destruct (t !! k) as [r|] eqn:Hk; [|by left]. simpl.
  right. by exists k, r.
Qed.

(** Writing a row whose note no other row holds keeps the notes unique. *)
Lemma notes_unique_insert (t : Table) (k : Z) (row : ModelNotes.Row) :
  notes_unique t →
  note_taken (delete k t) (ModelNotes.note row) = false →
  notes_unique (<[k := row]> t).
Proof.
  intros Huniq Hfree. pose proof (proj1 (note_taken_false _ _) Hfree) as Hne.
  intros j1 j2 q1 q2 H1 H2 Heq.
  destruct (decide (j1 = k)) as [->|N1], (decide (j2 = k)) as [->|N2]; [done| | |].
  - rewrite lookup_insert_eq in H1. rewrite lookup_insert_ne in H2 by done.
    injection H1 as <-. exfalso. apply (Hne j2 q2); [|done].
    by apply lookup_delete_Some.
  - rewrite lookup_insert_eq in H2. rewrite lookup_insert_ne in H1 by done.
    injection H2 as <-. exfalso. apply (Hne j1 q1); [|done].
    by apply lookup_delete_Some.
  - rewrite lookup_insert_ne in H1, H2 by done. eauto.
Qed.

Lemma notes_unique_delete (t : Table) (k : Z) :
  notes_unique t → notes_unique (delete k t).
Proof.
  intros Huniq j1 j2 q1 q2 H1 H2.
  apply lookup_delete_Some in H1 as [_ H1]. apply lookup_delete_Some in H2 as [_ H2].
  eauto.
Qed.

Lemma note_taken_delete_fresh (t : Table) (k : Z) (s : pystr) :
  t !! k = None → note_taken (delete k t) s = note_taken t s.
Proof. intros H. by rewrite delete_id. Qed.

(** Replacing the tags of a row keeps the notes as they are. *)
Lemma note_taken_delete_own (t : Table) (k : Z) (r : ModelNotes.Row) :
  notes_unique t → t !! k = Some r →
  note_taken (delete k t) (ModelNotes.note r) = false.
Proof.
  intros Huniq Hk. apply note_taken_false. intros j q Hj Heq.
  apply lookup_delete_Some in Hj as [Hne Hj]. apply Hne.
  exact (Huniq _ _ _ _ Hk Hj (eq_sym Heq)).
Qed.

(** ** One call *)

Section Calls.

Variable Tag : pystr → res pyval.

(** The object and the table after each method, whatever it returned. *)
Lemma after_replace_text (new_text : pystr) (st : State) :
  let st' := after_call Tag (call_replace_text new_text) st in
  this st' = {| text := StrObj new_text; tags := tags (this st);
                note_id := note_id (this st) |}
  ∧ table (world st') =
      match exec_update_note (table (world st)) (note_id (this st)) new_text with
      | inl _ => table (world st)
      | inr t => t
      end.
Proof.
  cbv zeta. unfold after_call. rewrite replace_text_run. cbv zeta.
  destruct (exec_update_note _ _ _); split; reflexivity.
Qed.

Lemma after_add_tags (new_tags : list pystr) (st : State) :
  let st' := after_call Tag (call_add_tags new_tags) st in
  match mapM Tag new_tags with
  | Raise _ => st' = st
  | Ok wrapped =>
      this st' = {| text := text (this st); tags := tags (this st) ++ wrapped;
                    note_id := note_id (this st) |}
      ∧ table (world st') =
          exec_update_tags (table (world st)) (note_id (this st))
            (json.dumps (tags (this st) ++ wrapped))
  end.
Proof.
  cbv zeta. unfold after_call. rewrite add_tags_run.
  destruct (mapM Tag new_tags); [split|]; reflexivity.
Qed.

Lemma after_remove_record (st : State) :
  let st' := after_call Tag call_remove_record st in
  this st' = this st
  ∧ table (world st') = exec_delete (table (world st)) (note_id (this st)).
Proof. split; reflexivity. Qed.

Lemma after_format_record (st : State) :
  after_call Tag call_format_record st = st.
Proof. destruct st as [[[v|s] ts i] w]; reflexivity. Qed.

(** No call assigns to [note_id], and [tags] is only ever extended. *)
Lemma after_call_object (c : Call) (st : State) :
  let st' := after_call Tag c st in
  note_id (this st') = note_id (this st)
  ∧ (∃ more, tags (this st') = tags (this st) ++ more)
  ∧ text (this st') =
      match c with
      | call_replace_text new_text => StrObj new_text
      | _ => text (this st)
      end.
Proof.
  cbv zeta. destruct c as [s|l| |].
  - destruct (after_replace_text s st) as [-> _]. simpl.
    split; [done|]. split; [|done]. exists []. by rewrite app_nil_r.
  - pose proof (after_add_tags l st) as H. cbv zeta in H.
    destruct (mapM Tag l) as [wrapped|e].
    + destruct H as [-> _]. simpl. split; [done|]. split; [|done]. by exists wrapped.
    + rewrite H. split; [done|]. split; [|done]. exists []. by rewrite app_nil_r.
  - destruct (after_remove_record st) as [-> _].
    split; [done|]. split; [|done]. exists []. by rewrite app_nil_r.
  - rewrite after_format_record.
    split; [done|]. split; [|done]. exists []. by rewrite app_nil_r.
Qed.

(** A call leaves every row but the object's own as it is, and creates no
    row. *)
Lemma after_call_frame (c : Call) (st : State) (j : Z) :
  let st' := after_call Tag c st in
  (note_id (this st) ≠ Some j → table (world st') !! j = table (world st) !! j)
  ∧ (table (world st) !! j = None → table (world st') !! j = None).
Proof.
  cbv zeta. destruct c as [s|l| |].
  - destruct (after_replace_text s st) as [_ ->].
    destruct (exec_update_note_cases (table (world st)) (note_id (this st)) s)
      as [[_ ->]|(k & r & Hi & Hk & [[_ ->]|[_ ->]])]; [done..|].
    rewrite Hi. split.
    + intros Hne. apply lookup_insert_ne. congruence.
    + intros Hj. apply lookup_insert_None. split; [done|]. congruence.
  - pose proof (after_add_tags l st) as H. cbv zeta in H.
    destruct (mapM Tag l) as [wrapped|e]; [|by rewrite H].
    destruct H as [_ ->].
    destruct (exec_update_tags_cases (table (world st)) (note_id (this st))
                (json.dumps (tags (this st) ++ wrapped)))
      as [[_ ->]|(k & r & Hi & Hk & ->)]; [done|].
    rewrite Hi. split.
    + intros Hne. apply lookup_insert_ne. congruence.
    + intros Hj. apply lookup_insert_None. split; [done|]. congruence.
  - destruct (after_remove_record st) as [_ ->].
    destruct (exec_delete_cases (table (world st)) (note_id (this st)))
      as [[_ ->]|(k & r & Hi & Hk & ->)]; [done|].
    rewrite Hi. split.
    + intros Hne. apply lookup_delete_ne. congruence.
    + intros Hj. apply lookup_delete_None. by right.
  - by rewrite after_format_record.
Qed.

(** A call keeps the notes unique. *)
Lemma after_call_unique (c : Call) (st : State) :
  notes_unique (table (world st)) →
  notes_unique (table (world (after_call Tag c st))).
Proof.
  intros Huniq. destruct c as [s|l| |].
  - destruct (after_replace_text s st) as [_ ->].
    destruct (exec_update_note_cases (table (world st)) (note_id (this st)) s)
      as [[_ ->]|(k & r & Hi & Hk & [[_ ->]|[Hfree ->]])]; [done..|].
    by apply notes_unique_insert.
  - pose proof (after_add_tags l st) as H. cbv zeta in H.
    destruct (mapM Tag l) as [wrapped|e]; [|by rewrite H].
    destruct H as [_ ->].
    destruct (exec_update_tags_cases (table (world st)) (note_id (this st))
                (json.dumps (tags (this st) ++ wrapped)))
      as [[_ ->]|(k & r & Hi & Hk & ->)]; [done|].
    apply notes_unique_insert; [done|]. simpl.
    by apply note_taken_delete_own.
  - destruct (after_remove_record st) as [_ ->].
    destruct (exec_delete_cases (table (world st)) (note_id (this st)))
      as [[_ ->]|(k & r & Hi & Hk & ->)]; [done|].
    by apply notes_unique_delete.
  - by rewrite after_format_record.
Qed.

(** A call keeps the tags column of the object's row and the tags of the
    object in step. *)
Lemma after_call_sync (c : Call) (st : State) :
  tags_in_sync st → tags_in_sync (after_call Tag c st).
Proof.
  unfold tags_in_sync. intros Hsync. destruct c as [s|l| |].
  - destruct (after_replace_text s st) as [Hthis Htable].
    rewrite Hthis, Htable. simpl. intros k r' Hi.
    destruct (exec_update_note_cases (table (world st)) (note_id (this st)) s)
      as [[_ ->]|(k0 & r & Hi0 & Hk & [[_ ->]|[_ ->]])]; [by eauto..|].
    assert (k0 = k) as -> by congruence.
    rewrite lookup_insert_eq. intros [= <-]. simpl. eauto.
  - pose proof (after_add_tags l st) as H. cbv zeta in H.
    destruct (mapM Tag l) as [wrapped|e]; [|by rewrite H].
    destruct H as [Hthis Htable]. rewrite Hthis, Htable. simpl. intros k r' Hi.
    destruct (exec_update_tags_cases (table (world st)) (note_id (this st))
                (json.dumps (tags (this st) ++ wrapped)))
      as [[Hnone ->]|(k0 & r & Hi0 & Hk & ->)].
    + intros Hk. rewrite Hi in Hnone. simpl in Hnone. by rewrite Hk in Hnone.
    + assert (k0 = k) as -> by congruence.
      rewrite lookup_insert_eq. by intros [= <-].
  - destruct (after_remove_record st) as [Hthis Htable].
    rewrite Hthis, Htable. intros k r' Hi.
    destruct (exec_delete_cases (table (world st)) (note_id (this st)))
      as [[_ ->]|(k0 & r & Hi0 & Hk & ->)]; [by eauto|].
    assert (k0 = k) as -> by congruence.
    by rewrite lookup_delete_eq.
  - by rewrite after_format_record.
Qed.

End Calls.

(** ** Sequences of calls *)

Lemma after_calls_cons (Tag : pystr → res pyval) (c : Call) (cs : list Call) (st : State) :
  after_calls Tag (c :: cs) st = after_calls Tag cs (after_call Tag c st).
Proof. reflexivity. Qed.

(** X2.  Whatever methods are called on an object, in whatever order and
    with whatever outcome, a key that is not the object's [note_id], or
    that has no row, looks up the same afterwards: the calls change no
    other row and create none. *)
Theorem calls_touch_own_row_only (Tag : pystr → res pyval) (cs : list Call)
    (st : State) (j : Z) :
  note_id (this st) ≠ Some j ∨ table (world st) !! j = None →
  table (world (after_calls Tag cs st)) !! j = table (world st) !! j.
Proof.
  revert st. induction cs as [|c cs IH]; intros st H; [reflexivity|].
  rewrite after_calls_cons.
  destruct (after_call_object Tag c st) as (Hid & _ & _).
  destruct (after_call_frame Tag c st j) as [Hother Hnone].
  assert (table (world (after_call Tag c st)) !! j = table (world st) !! j) as Hstep.
  { destruct H as [H|H]; [by apply Hother|]. rewrite H. by apply Hnone. }
  rewrite IH; [exact Hstep|].
  destruct H as [H|H]; [left; by rewrite Hid | right; by rewrite Hstep].
Qed.

(** X3.  No sequence of calls changes the [note_id] of the object, and its
    tags afterwards start with the tags it had. *)
Theorem calls_keep_identity (Tag : pystr → res pyval) (cs : list Call) (st : State) :
  note_id (this (after_calls Tag cs st)) = note_id (this st)
  ∧ tags (this st) `prefix_of` tags (this (after_calls Tag cs st)).
Proof.
  revert st. induction cs as [|c cs IH]; intros st; [done|].
  rewrite after_calls_cons.
  destruct (after_call_object Tag c st) as (Hid & [more Htags] & _).
  destruct (IH (after_call Tag c st)) as [IHid IHtags].
  split; [by rewrite IHid|].
  etrans; [|exact IHtags]. rewrite Htags. by apply prefix_app_r.
Qed.

Lemma after_calls_text (Tag : pystr → res pyval) (cs : list Call) (st : State) :
  (∃ v, text (this (after_calls Tag cs st)) = TextObj v)
  ↔ (∃ v, text (this st) = TextObj v) ∧ forallb (λ c, negb (is_replace_text c)) cs = true.
Proof.
  revert st. induction cs as [|c cs IH]; intros st; [simpl; tauto|].
  rewrite after_calls_cons, IH. simpl. rewrite andb_true_iff.
  destruct (after_call_object Tag c st) as (_ & _ & ->).
  destruct c; simpl; split; try tauto.
  - intros [[v Hv] _]. discriminate Hv.
  - intros [_ [H _]]. discriminate H.
Qed.

(** X4.  After a sequence of calls on an object whose [text] was a [Text]
    wrapper, [format_record] returns a string exactly when none of the
    calls was [replace_text]; after a [replace_text] no later call makes it
    work again. *)
Theorem format_record_after_calls (Tag : pystr → res pyval) (cs : list Call) (st : State) :
  (∃ s, fst (format_record (after_calls Tag cs st)) = Ok s)
  ↔ (∃ v, text (this st) = TextObj v)
    ∧ forallb (λ c, negb (is_replace_text c)) cs = true.
Proof.
  rewrite <- (after_calls_text Tag).
  destruct (after_calls Tag cs st) as [[[v|s0] ts i] w].
  - rewrite format_record_TextObj. split; intros _; eexists; reflexivity.
  - rewrite format_record_StrObj. split; intros [x Hx]; discriminate Hx.
Qed.

Lemma after_calls_unique (Tag : pystr → res pyval) (cs : list Call) (st : State) :
  notes_unique (table (world st)) →
  notes_unique (table (world (after_calls Tag cs st))).
Proof.
  revert st. induction cs as [|c cs IH]; intros st H; [done|].
  rewrite after_calls_cons. apply IH. by apply after_call_unique.
Qed.

Lemma after_calls_sync (Tag : pystr → res pyval) (cs : list Call) (st : State) :
  tags_in_sync st → tags_in_sync (after_calls Tag cs st).
Proof.
  revert st. induction cs as [|c cs IH]; intros st H; [done|].
  rewrite after_calls_cons. apply IH. by apply after_call_sync.
Qed.

Lemma notes_unique_empty : notes_unique ∅.
Proof. intros j k q r H. by rewrite lookup_empty in H. Qed.

(** The table after a construction, by cases: as before, or with one row
    more under a key that was free, whose note no row held. *)
Lemma Record_init_table (Text Tag : pystr → res pyval) (text : pystr)
    (tags : option (list pystr)) (i : option Z) (w : World) :
  let out := Record_init Text Tag text tags i w in
  (table (snd out) = table w
   ∧ ∀ obj, fst out = Ok obj → falsy_id i = true → note_id obj = None)
  ∨ ∃ k s ts,
      falsy_id i = true
      ∧ Text text = Ok (PyStr s) ∧ wrap_tags Tag tags = Ok ts
      ∧ table w !! k = None
      ∧ note_taken (table w) s = false
      ∧ table (snd out) =
          <[k := {| ModelNotes.note := s; ModelNotes.tags := json.dumps ts |}]> (table w)
      ∧ fst out = Ok {| text := TextObj (PyStr s); tags := ts; note_id := Some k |}.
Proof.
  cbv zeta. destruct (falsy_id i) eqn:Hi.
  - destruct (Text text) as [v|e] eqn:HT.
    2: { left. unfold Record_init. rewrite HT. split; [done|]. discriminate. }
    destruct (wrap_tags Tag tags) as [ts|e] eqn:HG.
    2: { left. unfold Record_init. rewrite HT, HG. split; [done|]. discriminate. }
    rewrite (Record_init_save _ _ _ _ _ _ _ _ HT HG Hi). cbv zeta.
    unfold exec_insert. destruct v as [|s].
    { left. rewrite bool_decide_eq_false_2 by (intros H; vm_compute in H; discriminate H).
      split; [done|]. by intros obj [= <-]. }
    destruct (note_taken (table w) s) eqn:Htaken.
    { left. rewrite bool_decide_eq_true_2 by done. split; [done|]. discriminate. }
    right. exists (next_id (table w)), s, ts.
    split; [done|]. split; [done|]. split; [done|].
    split; [apply next_id_fresh|]. done.
  - left. rewrite (Record_init_wrap _ _ _ _ _ _ Hi). simpl. split; [done|]. discriminate.
Qed.

Lemma Record_init_unique (Text Tag : pystr → res pyval) (text : pystr)
    (tags : option (list pystr)) (i : option Z) (w : World) :
  notes_unique (table w) →
  notes_unique (table (snd (Record_init Text Tag text tags i w))).
Proof.
  intros Huniq.
  destruct (Record_init_table Text Tag text tags i w)
    as [[-> _]|(k & s & ts & _ & _ & _ & Hk & Hfree & -> & _)]; [done|].
  apply notes_unique_insert; [done|]. simpl.
  by rewrite note_taken_delete_fresh.
Qed.

(** X5.  When no two rows hold the same note, none do after a construction,
    nor after any sequence of calls on any object in the world it leaves:
    the notes of the table stay unique, [replace_text] included. *)
Theorem notes_stay_unique (Text Tag : pystr → res pyval) (text : pystr)
    (tags : option (list pystr)) (i : option Z) (w : World)
    (obj : RecordObj) (cs : list Call) :
  notes_unique (table w) →
  let w' := snd (Record_init Text Tag text tags i w) in
  notes_unique (table w')
  ∧ notes_unique (table (world (after_calls Tag cs {| this := obj; world := w' |}))).
Proof.
  intros Huniq. cbv zeta.
  pose proof (Record_init_unique Text Tag text tags i w Huniq) as H.
  split; [exact H|]. by apply after_calls_unique.
Qed.

(** X6.  An object that a construction without an identifier returned has,
    after any sequence of calls, the JSON encoding of its tags in the
    [tags] column of its row, as long as that row exists. *)
Theorem tags_stay_in_sync (Text Tag : pystr → res pyval) (text : pystr)
    (tags : option (list pystr)) (i : option Z) (w w' : World)
    (obj : RecordObj) (cs : list Call) :
  falsy_id i = true →
  Record_init Text Tag text tags i w = (Ok obj, w') →
  tags_in_sync (after_calls Tag cs {| this := obj; world := w' |}).
Proof.
  intros Hi Hinit. apply after_calls_sync.
  unfold tags_in_sync. simpl. intros k r Hid Hk.
  destruct (Record_init_table Text Tag text tags i w)
    as [[_ Hnone]|(k0 & s & ts & _ & _ & _ & _ & _ & Htable & Hobj)];
    rewrite Hinit in *; simpl in *.
  - rewrite (Hnone obj eq_refl Hi) in Hid. discriminate Hid.
  - injection Hobj as ->. simpl in *. injection Hid as ->.
    rewrite Htable, lookup_insert_eq in Hk. by injection Hk as <-.
Qed.

(** ** Validation of tags *)

Section Validation.

Variable Tag : pystr → res pyval.

Lemma mapM_cons (x : pystr) (l : list pystr) :
  mapM Tag (x :: l) =
    match Tag x with
    | Raise e => Raise e
    | Ok v => match mapM Tag l with
              | Raise e => Raise e
              | Ok vs => Ok (v :: vs)
              end
    end.
Proof.
  simpl. unfold mbind, res_bind, mret, res_ret.
  destruct (Tag x); [|reflexivity]. destruct (mapM Tag l); reflexivity.
Qed.

(** The values come one per tag, in the order of the tags. *)
Lemma mapM_Ok (l : list pystr) (vs : list pyval) :
  mapM Tag l = Ok vs ↔ Forall2 (λ x v, Tag x = Ok v) l vs.
Proof.
  revert vs. induction l as [|x l IH]; intros vs.
  - split; [intros [= <-]; constructor | by inversion 1].
  - rewrite mapM_cons. split.
    + destruct (Tag x) as [v|e] eqn:Hx; [|discriminate].
      destruct (mapM Tag l) as [vs'|e] eqn:Hl; [|discriminate].
      intros [= <-]. constructor; [done|]. by apply IH.
    + inversion 1 as [|? v ? vs' Hx Hl]; subst.
      rewrite Hx. apply IH in Hl. by rewrite Hl.
Qed.

Lemma mapM_valid (l : list pystr) :
  (∃ vs, mapM Tag l = Ok vs) ↔ Forall (λ x, ∃ v, Tag x = Ok v) l.
Proof.
  induction l as [|x l IH].
  - split; [constructor | by exists []].
  - rewrite mapM_cons. split.
    + intros [vs H]. destruct (Tag x) as [v|e] eqn:Hx; [|discriminate].
      destruct (mapM Tag l) as [vs'|e] eqn:Hl; [|discriminate].
      constructor; [by exists v|]. apply IH. by exists vs'.
    + inversion 1 as [|? ? [v Hx] Hl]; subst.
      apply IH in Hl as [vs Hl]. rewrite Hx, Hl. by eexists.
Qed.

(** The exception is that of the first tag that does not validate. *)
Lemma mapM_first_raise (good : list pystr) (bad : pystr) (rest : list pystr) (e : exn) :
  Forall (λ x, ∃ v, Tag x = Ok v) good →
  Tag bad = Raise e →
  mapM Tag (good ++ bad :: rest) = Raise e.
Proof.
  intros Hgood Hbad. induction Hgood as [|x good [v Hx] _ IH].
  - simpl app. by rewrite mapM_cons, Hbad.
  - change ((x :: good) ++ bad :: rest) with (x :: (good ++ bad :: rest)).
    by rewrite mapM_cons, Hx, IH.
Qed.


(** X7.  [add_tags] is all or nothing: when one of the new tags does not
    validate, the call raises the exception of the first such tag, sends no
    statement, and appends none of the tags, not even the valid ones in
    front of it. *)
Theorem add_tags_all_or_nothing (good : list pystr) (bad : pystr) (rest : list pystr)
    (e : exn) (st : State) :
  Forall (λ x, ∃ v, Tag x = Ok v) good →
  Tag bad = Raise e →
  add_tags Tag (good ++ bad :: rest) st = (Raise e, st).
Proof.
  intros Hgood Hbad.
  by rewrite add_tags_run, (mapM_first_raise _ _ _ _ Hgood Hbad).
Qed.

(** X8.  When [add_tags] returns normally, every new tag validated, and the
    values it appended to the tags of the object are those of the new tags,
    one for each and in their order. *)
Theorem add_tags_returns_for_valid_tags_only (new_tags : list pystr) (st st' : State) :
  add_tags Tag new_tags st = (Ok (), st') →
  ∃ wrapped, Forall2 (λ x v, Tag x = Ok v) new_tags wrapped
             ∧ tags (this st') = tags (this st) ++ wrapped.
Proof.
  rewrite add_tags_run.
  destruct (mapM Tag new_tags) as [wrapped|e] eqn:HG; cbv zeta; [|discriminate].
  intros [= <-]. exists wrapped. split; [by apply mapM_Ok | reflexivity].
Qed.



End Validation.

(** ** Construction, further *)

Section Construction.

Variable Text : pystr → res pyval.
Variable Tag : pystr → res pyval.

(** X10.  A construction changes the table in at most one place: every key
    looks up the same afterwards, except the key, free before, that the
    construction returns as the [note_id] of the new object.  A construction
    that raises, or that returns an object without identifier, leaves no
    row behind. *)
Theorem init_adds_its_own_row_only (text : pystr) (tags : option (list pystr))
    (i : option Z) (w : World) (j : Z) :
  let out := Record_init Text Tag text tags i w in
  table (snd out) !! j = table w !! j
  ∨ (table w !! j = None
     ∧ falsy_id i = true
     ∧ ∃ obj, fst out = Ok obj ∧ note_id obj = Some j).
Proof.
  cbv zeta.
  destruct (Record_init_table Text Tag text tags i w)
    as [[-> _]|(k & s & ts & Hi & _ & _ & Hk & _ & -> & ->)]; [by left|].
  destruct (decide (k = j)) as [->|Hne].
  - right. split; [done|]. split; [done|]. by eexists.
  - left. by apply lookup_insert_ne.
Qed.

(** X11.  A construction without an identifier followed by [remove_record]
    on the object it returned leaves the table as it was before the
    construction, whether the insert went through or failed silently. *)
Theorem init_then_remove_restores_table (text : pystr) (tags : option (list pystr))
    (i : option Z) (w w' : World) (obj : RecordObj) :
  falsy_id i = true →
  Record_init Text Tag text tags i w = (Ok obj, w') →
  ∃ st', remove_record {| this := obj; world := w' |} = (Ok (), st')
         ∧ table (world st') = table w.
Proof.
  intros Hi Hinit. rewrite remove_record_run. cbv zeta.
  eexists. split; [reflexivity|]. simpl.
  destruct (Record_init_table Text Tag text tags i w)
    as [[Htable Hnone]|(k & s & ts & _ & _ & _ & Hk & _ & Htable & Hobj)];
    rewrite Hinit in *; simpl in *.
  - by rewrite (Hnone obj eq_refl Hi), Htable.
  - injection Hobj as ->. rewrite Htable. unfold exec_delete. simpl.
    rewrite lookup_insert_eq. simpl. by apply delete_insert_id.
Qed.

(** X12.  The identifier 0 is no identifier: a construction that is given 0
    does, and returns, what the same construction without an identifier
    does. *)
Theorem init_zero_is_no_identifier (text : pystr) (tags : option (list pystr))
    (w : World) :
  Record_init Text Tag text tags (Some 0) w = Record_init Text Tag text tags None w.
Proof.
  unfold Record_init. destruct (Text text) as [v|e]; [|reflexivity].
  destruct (wrap_tags Tag tags) as [ts|e]; [|reflexivity].
  run. destruct (exec_insert _ _ _) as [orig|[k t]]; [|reflexivity].
  run. destruct (bool_decide _); reflexivity.
Qed.

End Construction.

(** ** [replace_text], further *)

(** X13.  When [replace_text] is refused because another row holds the new
    text, the object is left out of step with its row: [text] is already
    the new text, the row still has the note it had, and the UPDATE was
    sent without a COMMIT after it. *)
Theorem replace_text_refused_leaves_text_changed (new_text : pystr) (st : State)
    (k j : Z) (r q : ModelNotes.Row) :
  note_id (this st) = Some k →
  table (world st) !! k = Some r →
  j ≠ k → table (world st) !! j = Some q → ModelNotes.note q = new_text →
  ∃ st',
    replace_text new_text st = (Raise (IntegrityError UNIQUE_note), st')
    ∧ text (this st') = StrObj new_text
    ∧ table (world st') !! k = Some r
    ∧ issued (world st') = issued (world st) ++ [UPDATE_note (Some k) new_text].
Proof.
  intros Hid Hk Hne Hj Hq. rewrite replace_text_run. cbv zeta.
  unfold exec_update_note. rewrite Hid, (where_row_Some _ _ _ Hk).
  assert (note_taken (delete k (table (world st))) new_text = true) as ->.
  { apply note_taken_true. exists j, q. split; [|done].
    by apply lookup_delete_Some. }
  eexists. split; [reflexivity|]. simpl. by rewrite Hk.
Qed.

(** X14.  [replace_text] with the note that the object's row already holds
    is accepted, provided the notes of the table are unique: the row does
    not count against itself, and the table is left as it was. *)
Theorem replace_text_same_note (st : State) (k : Z) (r : ModelNotes.Row) :
  notes_unique (table (world st)) →
  note_id (this st) = Some k →
  table (world st) !! k = Some r →
  ∃ st',
    replace_text (ModelNotes.note r) st = (Ok (), st')
    ∧ table (world st') = table (world st).
Proof.
  intros Huniq Hid Hk. rewrite replace_text_run. cbv zeta.
  unfold exec_update_note. rewrite Hid, (where_row_Some _ _ _ Hk).
  rewrite (note_taken_delete_own _ _ _ Huniq Hk).
  eexists. split; [reflexivity|]. simpl.
  apply insert_id. rewrite Hk. by destruct r.
Qed.

(** ** The text [json.dumps] writes *)

Lemma printable_literal (s : string) :
  forallb (λ c, (32 <=? c) && (c <=? 126))%N (py s) = true → Forall printable (py s).
Proof.
  intros H. apply Forall_forall. intros c Hc.
  rewrite forallb_forall in H. apply list_elem_of_In in Hc.
  apply H in Hc. apply andb_true_iff in Hc as [H1 H2].
  apply N.leb_le in H1, H2. unfold printable. lia.
Qed.

Lemma land_15_lt (n : N) : (N.land n 15 < 16)%N.
Proof.
  change 15%N with (N.ones 4). rewrite N.land_ones.
  by apply N.mod_lt.
Qed.

Lemma hex_digit_printable (d : N) : (d < 16)%N → printable (json.hex_digit d).
Proof.
  intros Hd. unfold json.hex_digit, printable.
  destruct (N.ltb_spec d 10); lia.
Qed.

Lemma u_escape_printable (n : N) : Forall printable (json.u_escape n).
Proof.
  unfold json.u_escape.
  repeat (constructor; [first [apply hex_digit_printable, land_15_lt
                              | unfold printable; lia]|]).
  constructor.
Qed.

Lemma escape_char_printable (c : N) : Forall printable (json.escape_char c).
Proof.
  unfold json.escape_char.
  repeat match goal with
         | |- Forall _ (if ?b then _ else _) => destruct b eqn:?
         end;
    try solve [repeat (constructor; [unfold printable; lia|]); constructor].
  - match goal with
    | H : (_ && _)%bool = true |- _ => apply andb_true_iff in H as [H1 H2]
    end.
    apply N.leb_le in H1, H2.
    constructor; [unfold printable; lia | constructor].
  - apply u_escape_printable.
  - apply Forall_app. split; apply u_escape_printable.
Qed.

Lemma encode_printable (v : pyval) : Forall printable (json.encode v).
Proof.
  destruct v as [|s]; [by apply printable_literal|].
  unfold json.encode, json.encode_basestring_ascii.
  apply Forall_app. split; [repeat constructor; unfold printable; lia|].
  apply Forall_app. split; [|repeat constructor; unfold printable; lia].
  apply Forall_concat, Forall_fmap, Forall_forall. intros c _.
  apply escape_char_printable.
Qed.

Lemma join_cons (sep p : pystr) (ps : list pystr) :
  join sep (p :: ps) = p ++ match ps with [] => [] | _ => sep ++ join sep ps end.
Proof. destruct ps; simpl; [by rewrite app_nil_r | reflexivity]. Qed.

Lemma join_Forall (P : N → Prop) (sep : pystr) (parts : list pystr) :
  Forall P sep → Forall (Forall P) parts → Forall P (join sep parts).
Proof.
  intros Hsep. induction 1 as [|p ps Hp Hps IH]; [constructor|].
  rewrite join_cons. apply Forall_app. split; [done|].
  destruct ps; [constructor|]. apply Forall_app. by split.
Qed.

(** X15.  Whatever the tag values are, the text that [json.dumps] writes
    for them, which is what goes into the [tags] column, consists of
    printable ASCII characters only: every other character of a tag is
    written as an escape. *)
Theorem dumps_is_printable_ascii (l : list pyval) : Forall printable (json.dumps l).
Proof.
  unfold json.dumps.
  apply Forall_app. split; [by apply printable_literal|].
  apply Forall_app. split; [|by apply printable_literal].
  apply join_Forall; [by apply printable_literal|].
  apply Forall_fmap, Forall_forall. intros v _. apply encode_printable.
Qed.

(** ** The text of [json.dumps] determines the values *)

Lemma unhex_hex_digit (d : N) : (d < 16)%N → reader.unhex (json.hex_digit d) = d.
Proof.
  intros Hd. unfold reader.unhex, json.hex_digit.
  destruct (N.ltb_spec d 10).
  - destruct (N.ltb_spec (48 + d) 58); lia.
  - destruct (N.ltb_spec (87 + d) 58); lia.
Qed.

Lemma read4_digits (n : N) :
  (n < 65536)%N →
  reader.read4 (json.hex_digit (N.land (N.shiftr n 12) 15))
               (json.hex_digit (N.land (N.shiftr n 8) 15))
               (json.hex_digit (N.land (N.shiftr n 4) 15))
               (json.hex_digit (N.land n 15)) = n.
Proof.
  intros Hn. unfold reader.read4.
  rewrite !unhex_hex_digit by apply land_15_lt.
  change 15%N with (N.ones 4). rewrite !N.land_ones, !N.shiftr_div_pow2.
  change (2 ^ 4)%N with 16%N. change (2 ^ 8)%N with 256%N. change (2 ^ 12)%N with 4096%N.
  zify. Z.to_euclidean_division_equations. lia.
Qed.

Lemma N_below_forallb (p : N → bool) (k : nat) :
  forallb p (N.of_nat <$> seq 0 k) = true → ∀ x, (x < N.of_nat k)%N → p x = true.
Proof.
  intros H x Hx. rewrite forallb_forall in H. apply H.
  apply list_elem_of_In, list_elem_of_fmap. exists (N.to_nat x).
  split; [by rewrite N2Nat.id|]. apply elem_of_seq. lia.
Qed.

(** The ten low bits of the surrogate bases are clear. *)
Lemma lor_surrogate (x : N) :
  (x < 1024)%N → N.lor 55296 x = (55296 + x)%N ∧ N.lor 56320 x = (56320 + x)%N.
Proof.
  intros Hx.
  pose proof (N_below_forallb
                (λ x, (N.lor 55296 x =? 55296 + x) && (N.lor 56320 x =? 56320 + x))%N
                1024 eq_refl x Hx) as H.
  apply andb_true_iff in H as [H1 H2]. by apply N.eqb_eq in H1, H2.
Qed.

Lemma land_1023_lt (n : N) : (N.land n 1023 < 1024)%N.
Proof.
  change 1023%N with (N.ones 10). rewrite N.land_ones. by apply N.mod_lt.
Qed.

(** The pair of surrogates written for a character beyond U+FFFF. *)
Lemma surrogates_spec (c : N) :
  let n := (c - 65536)%N in
  let s1 := N.lor 55296 (N.land (N.shiftr n 10) 1023) in
  let s2 := N.lor 56320 (N.land n 1023) in
  (s1 < 65536 ∧ s2 < 65536)%N
  ∧ ((65536 ≤ c < 1114112)%N →
     reader.is_high s1 = true ∧ reader.is_low s2 = true
     ∧ (65536 + ((s1 - 55296) * 1024 + (s2 - 56320)))%N = c).
Proof.
  cbv zeta.
  destruct (lor_surrogate _ (land_1023_lt (N.shiftr (c - 65536) 10))) as [-> _].
  destruct (lor_surrogate _ (land_1023_lt (c - 65536))) as [_ ->].
  pose proof (land_1023_lt (N.shiftr (c - 65536) 10)) as H1.
  pose proof (land_1023_lt (c - 65536)) as H2.
  split; [lia|]. intros Hc.
  unfold reader.is_high, reader.is_low.
  split; [apply andb_true_iff; split; apply N.leb_le; lia|].
  split; [apply andb_true_iff; split; apply N.leb_le; lia|].
  revert H1 H2. change 1023%N with (N.ones 10).
  rewrite !N.land_ones, !N.shiftr_div_pow2. change (2 ^ 10)%N with 1024%N.
  intros H1 H2. zify. Z.to_euclidean_division_equations. lia.
Qed.

Lemma units_u_escape (n : N) (tail : pystr) :
  (n < 65536)%N →
  reader.units (json.u_escape n ++ tail) = reader.prepend n (reader.units tail).
Proof.
  intros Hn. unfold json.u_escape. simpl. by rewrite read4_digits.
Qed.

(** Reading the escape of a character gives back its UTF-16 units. *)
Lemma units_escape_char (c : N) (tail : pystr) :
  reader.units (json.escape_char c ++ tail)
  = foldr reader.prepend (reader.units tail) (reader.utf16_units c).
Proof.
  unfold json.escape_char.
  destruct (N.eqb_spec c 92) as [->|N92]; [reflexivity|].
  destruct (N.eqb_spec c 34) as [->|N34]; [reflexivity|].
  destruct ((32 <=? c) && (c <=? 126))%N eqn:Hp.
  { apply andb_true_iff in Hp as [_ Hp]. apply N.leb_le in Hp.
    unfold reader.utf16_units.
    destruct (N.ltb_spec c 65536); [|lia]. simpl.
    apply N.eqb_neq in N92, N34. by rewrite N92, N34. }
  destruct (N.eqb_spec c 8) as [->|N8]; [reflexivity|].
  destruct (N.eqb_spec c 12) as [->|N12]; [reflexivity|].
  destruct (N.eqb_spec c 10) as [->|N10]; [reflexivity|].
  destruct (N.eqb_spec c 13) as [->|N13]; [reflexivity|].
  destruct (N.eqb_spec c 9) as [->|N9]; [reflexivity|].
  unfold reader.utf16_units. destruct (N.ltb_spec c 65536) as [Hc|Hc].
  - by apply units_u_escape.
  - cbv zeta. destruct (surrogates_spec c) as [[H1 H2] _]. cbv zeta in H1, H2.
    rewrite <- app_assoc, (units_u_escape _ _ H1), (units_u_escape _ _ H2).
    reflexivity.
Qed.

Lemma foldr_prepend_Some (us vs rest : pystr) :
  foldr reader.prepend (Some (vs, rest)) us = Some (us ++ vs, rest).
Proof. induction us as [|u us IH]; [reflexivity|]. simpl. by rewrite IH. Qed.

Lemma units_string (s rest : pystr) :
  reader.units (concat (json.escape_char <$> s) ++ 34%N :: rest)
  = Some (concat (reader.utf16_units <$> s), rest).
Proof.
  induction s as [|c s IH]; [reflexivity|].
  rewrite !fmap_cons. simpl concat.
  by rewrite <- app_assoc, units_escape_char, IH, foldr_prepend_Some.
Qed.

Lemma join_surrogates_single (c : N) (us : pystr) :
  reader.is_high c = false →
  reader.join_surrogates (c :: us) = c :: reader.join_surrogates us.
Proof.
  intros H. destruct us as [|lo us]; [reflexivity|].
  change (reader.join_surrogates (c :: lo :: us))
    with (if reader.is_high c && reader.is_low lo
          then (65536 + ((c - 55296) * 1024 + (lo - 56320)))%N :: reader.join_surrogates us
          else c :: reader.join_surrogates (lo :: us)).
  by rewrite H.
Qed.

Lemma join_surrogates_pair (hi lo : N) (us : pystr) :
  reader.is_high hi = true → reader.is_low lo = true →
  reader.join_surrogates (hi :: lo :: us)
  = (65536 + ((hi - 55296) * 1024 + (lo - 56320)))%N :: reader.join_surrogates us.
Proof.
  intros Hhi Hlo.
  change (reader.join_surrogates (hi :: lo :: us))
    with (if reader.is_high hi && reader.is_low lo
          then (65536 + ((hi - 55296) * 1024 + (lo - 56320)))%N :: reader.join_surrogates us
          else hi :: reader.join_surrogates (lo :: us)).
  by rewrite Hhi, Hlo.
Qed.

Lemma join_surrogates_units (s : pystr) :
  Forall scalar s →
  reader.join_surrogates (concat (reader.utf16_units <$> s)) = s.
Proof.
  induction 1 as [|c s [Hlt Hns] _ IH]; [reflexivity|].
  rewrite fmap_cons. simpl concat. unfold reader.utf16_units at 1.
  destruct (N.ltb_spec c 65536) as [Hc|Hc].
  - simpl app. rewrite join_surrogates_single, IH; [done|].
    unfold reader.is_high. apply andb_false_iff.
    destruct (N.leb_spec 55296 c); [right|by left].
    apply N.leb_gt. lia.
  - cbv zeta. destruct (surrogates_spec c) as [_ H]. cbv zeta in H.
    destruct (H (conj Hc Hlt)) as (Hhi & Hlo & Hjoin).
    simpl app. by rewrite (join_surrogates_pair _ _ _ Hhi Hlo), Hjoin, IH.
Qed.

(** Reading an item that [json.encode] wrote gives the value back. *)
Lemma item_encode (v : pyval) (rest : pystr) :
  scalar_value v → reader.item (json.encode v ++ rest) = Some (v, rest).
Proof.
  destruct v as [|s]; [reflexivity|]. intros Hs.
  unfold json.encode, json.encode_basestring_ascii.
  rewrite <- !app_assoc. simpl app. unfold reader.item.
  change (34 =? 34)%N with true. cbv iota.
  by rewrite units_string, join_surrogates_units.
Qed.

Lemma items_inj (l1 l2 : list pyval) :
  Forall scalar_value l1 → Forall scalar_value l2 →
  join (py ", ") (json.encode <$> l1) ++ py "]"
  = join (py ", ") (json.encode <$> l2) ++ py "]" →
  l1 = l2.
Proof.
  intros H1. revert l2. induction H1 as [|v1 l1 Hv1 Hl1 IH]; intros l2 H2 Heq.
  - destruct H2 as [|v2 l2 Hv2 Hl2]; [reflexivity|].
    rewrite fmap_cons, join_cons, <- app_assoc in Heq.
    apply (f_equal reader.item) in Heq. rewrite (item_encode _ _ Hv2) in Heq.
    discriminate Heq.
  - destruct H2 as [|v2 l2 Hv2 Hl2].
    + rewrite fmap_cons, join_cons, <- app_assoc in Heq.
      apply (f_equal reader.item) in Heq. rewrite (item_encode _ _ Hv1) in Heq.
      discriminate Heq.
    + rewrite !fmap_cons, !join_cons, <- !app_assoc in Heq.
      apply (f_equal reader.item) in Heq.
      rewrite (item_encode _ _ Hv1), (item_encode _ _ Hv2) in Heq.
      apply Some_inj, pair_equal_spec in Heq as [-> Htail]. f_equal.
      destruct Hl1 as [|u1 l1 Hu1 Hl1], Hl2 as [|u2 l2 Hu2 Hl2].
      * reflexivity.
      * rewrite fmap_cons in Htail. discriminate Htail.
      * rewrite fmap_cons in Htail. discriminate Htail.
      * apply IH; [by constructor|].
        rewrite !fmap_cons in Htail. cbv beta iota in Htail.
        rewrite <- !app_assoc in Htail. apply app_inv_head in Htail.
        by rewrite !fmap_cons.
Qed.

(** X16.  The text that [json.dumps] writes determines the values it was
    written for: two lists of tag values whose characters are Unicode
    scalar values (no surrogates) and that have the same text are the same
    list, so distinct tag lists are stored as distinct [tags] columns. *)
Theorem dumps_injective (l1 l2 : list pyval) :
  Forall scalar_value l1 →
  Forall scalar_value l2 →
  json.dumps l1 = json.dumps l2 →
  l1 = l2.
Proof.
  intros H1 H2 Heq. unfold json.dumps in Heq.
  apply app_inv_head in Heq. by apply items_inj.
Qed.

(** Without the restriction to scalar values the text does not determine
    the list: a pair of surrogates is written as the character it encodes. *)
Example dumps_surrogate_pair :
  json.dumps [PyStr [55357; 56832]%N] = json.dumps [PyStr [128512%N]].
Proof. reflexivity. Qed.

(** ** The further properties on instances *)

(** X2, on an instance: three calls on the second of two notes leave the
    first as it is. *)
Lemma calls_touch_own_row_only_witness :
  let cs := [call_replace_text (py "new"); call_add_tags [py "a"]; call_remove_record] in
  table (world (after_calls accept cs world_state)) !! 1
  = table (world world_state) !! 1.
Proof.
  apply (calls_touch_own_row_only accept
           [call_replace_text (py "new"); call_add_tags [py "a"]; call_remove_record]
           world_state 1).
  left. discriminate.
Defined.

(** X5, on an instance: [Record("hello")] in the empty world, then a
    [replace_text]. *)
Lemma notes_stay_unique_witness :
  let w' := snd (Record_init accept accept (py "hello") None None empty_world) in
  notes_unique (table w')
  ∧ notes_unique
      (table (world (after_calls accept [call_replace_text (py "new")]
                       {| this := hello_record; world := w' |}))).
Proof.
  apply (notes_stay_unique accept accept (py "hello") None None empty_world
           hello_record [call_replace_text (py "new")]).
  exact notes_unique_empty.
Defined.

(** X6, on an instance: [Record("hello")], then two calls of [add_tags], the
    second with a tag that does not validate. *)
Lemma tags_stay_in_sync_witness :
  tags_in_sync
    (after_calls nonempty [call_add_tags [py "a"]; call_add_tags [py "b"; []]]
       {| this := hello_record; world := hello_world |}).
Proof.
  apply (tags_stay_in_sync accept nonempty (py "hello") None None empty_world
           hello_world hello_record
           [call_add_tags [py "a"]; call_add_tags [py "b"; []]]);
    reflexivity.
Defined.

(** X7, on an instance: [add_tags(["a", "", "b"])] where the empty tag does
    not validate. *)
Lemma add_tags_all_or_nothing_witness :
  add_tags nonempty ([py "a"] ++ [] :: [py "b"]) hello_state
  = (Raise (ValidationError (py "empty")), hello_state).
Proof.
  apply (add_tags_all_or_nothing nonempty [py "a"] [] [py "b"]
           (ValidationError (py "empty")) hello_state).
  - constructor; [by eexists | constructor].
  - reflexivity.
Defined.

(** X8, on an instance: [add_tags(["a", "b"])] on the object of
    [Record("hello")]. *)
Lemma add_tags_returns_for_valid_tags_only_witness :
  ∃ wrapped,
    Forall2 (λ x v, accept x = Ok v) [py "a"; py "b"] wrapped
    ∧ tags (this (snd (add_tags accept [py "a"; py "b"] hello_state)))
      = tags (this hello_state) ++ wrapped.
Proof.
  apply (add_tags_returns_for_valid_tags_only accept [py "a"; py "b"] hello_state
           (snd (add_tags accept [py "a"; py "b"] hello_state))).
  reflexivity.
Defined.


(** X11, on an instance: [Record("world")] after [Record("hello")], then
    [remove_record()]. *)
Lemma init_then_remove_restores_table_witness :
  ∃ st', remove_record {| this := world_record; world := two_notes_world |} = (Ok (), st')
         ∧ table (world st') = table hello_world.
Proof.
  apply (init_then_remove_restores_table accept accept (py "world") None None
           hello_world two_notes_world world_record);
    reflexivity.
Defined.

(** X13, on an instance: [replace_text("hello")] on the second of two notes,
    the first of which reads [hello]. *)
Lemma replace_text_refused_leaves_text_changed_witness :
  ∃ st',
    replace_text (py "hello") world_state = (Raise (IntegrityError UNIQUE_note), st')
    ∧ text (this st') = StrObj (py "hello")
    ∧ table (world st') !! 2 =
        Some {| ModelNotes.note := py "world"; ModelNotes.tags := py "[]" |}
    ∧ issued (world st') =
        issued (world world_state) ++ [UPDATE_note (Some 2) (py "hello")].
Proof.
  apply (replace_text_refused_leaves_text_changed (py "hello") world_state 2 1
           {| ModelNotes.note := py "world"; ModelNotes.tags := py "[]" |}
           {| ModelNotes.note := py "hello"; ModelNotes.tags := py "[]" |});
    [reflexivity | reflexivity | lia | reflexivity | reflexivity].
Defined.

(** X14, on an instance: [replace_text("hello")] on the object of
    [Record("hello")]. *)
Lemma replace_text_same_note_witness :
  ∃ st',
    replace_text (py "hello") hello_state = (Ok (), st')
    ∧ table (world st') = table (world hello_state).
Proof.
  apply (replace_text_same_note hello_state 1
           {| ModelNotes.note := py "hello"; ModelNotes.tags := py "[]" |}).
  - apply (Record_init_unique accept accept (py "hello") None None empty_world).
    exact notes_unique_empty.
  - reflexivity.
  - reflexivity.
Defined.

(** X16, on an instance: a list with an escaped character and [None]. *)
Lemma dumps_injective_witness :
  [PyStr [233%N; 128512%N]; PyNone] = [PyStr [233%N; 128512%N]; PyNone].
Proof.
  apply (dumps_injective [PyStr [233%N; 128512%N]; PyNone]
           [PyStr [233%N; 128512%N]; PyNone]).
  - repeat constructor; unfold scalar; lia.
  - repeat constructor; unfold scalar; lia.
  - reflexivity.
Defined.
